(** * CloudWorx setup script ([init-scripts/init.py])

    A shallow embedding of the command runner and of the precondition
    checks of the setup script, and the properties of its specification
    that concern them.

    Python values are modelled as follows.
    - [str] is a sequence of Unicode code points ([list N]); literals of
      the script that are plain ASCII are written with [u "..."].
    - The terminal is a log of the chunks handed to [print]; the commands
      handed to [Popen] are recorded in the same log.
    - The operating system (working directory, file system, executables on
      the search path, pending terminal input) is a record [OS]; external
      commands are an oracle [os_popen] that may change it arbitrarily.
    - A function of the script is a computation [M A] over the script state
      that returns, terminates the process ([sys.exit]) or raises. *)

From Stdlib Require Import ZArith String Ascii.
From stdpp Require Import gmap list.

(** ** Strings *)

Definition char := N.
Definition str := list char.

Definition u (s : string) : str :=
  map N_of_ascii (list_ascii_of_string s).
Arguments u s%_string : simpl never.

Definition LF : char := 10%N.
Definition CR : char := 13%N.
Definition SP : char := 32%N.
Definition HASH : char := 35%N.
Definition EQUALS : char := 61%N.
Definition BACKTICK : char := 96%N.

(** The characters removed by [str.strip()]: those for which Python's
    [str.isspace] holds. *)
Definition isspace (c : char) : bool :=
  ((9 <=? c) && (c <=? 13) || (28 <=? c) && (c <=? 32)
   || (c =? 0x85) || (c =? 0xA0) || (c =? 0x1680)
   || (0x2000 <=? c) && (c <=? 0x200A)
   || (c =? 0x2028) || (c =? 0x2029) || (c =? 0x202F)
   || (c =? 0x205F) || (c =? 0x3000))%N.

Fixpoint lstrip (s : str) : str :=
  match s with
  | [] => []
  | c :: s' => if isspace c then lstrip s' else s
  end.

Definition rstrip (s : str) : str := rev (lstrip (rev s)).

(** [s.strip()] *)
Definition strip (s : str) : str := rstrip (lstrip s).

(** Truth value of a string: non-empty. *)
Definition truthy (s : str) : bool :=
  match s with [] => false | _ :: _ => true end.

(** [s.startswith(p)] *)
Fixpoint startswith (s p : str) : bool :=
  match p, s with
  | [], _ => true
  | _ :: _, [] => false
  | a :: p', b :: s' => (a =? b)%N && startswith s' p'
  end.

(** [c in s] for a one-character string [c]. *)
Definition has_char (c : char) (s : str) : bool := existsb (N.eqb c) s.

(** [s.split(sep, 1)] for a one-character separator: one piece when the
    separator does not occur, otherwise the text before its first
    occurrence and the text after it. *)
Fixpoint split1 (sep : char) (s : str) : list str :=
  match s with
  | [] => [[]]
  | c :: s' =>
      if (c =? sep)%N then [[]; s']
      else match split1 sep s' with
           | h :: t => (c :: h) :: t
           | [] => [[c]]
           end
  end.

(** [s.find(c)] for a one-character string: the least index, or [-1]. *)
Fixpoint find (c : char) (s : str) : Z :=
  match s with
  | [] => -1
  | x :: s' =>
      if (x =? c)%N then 0
      else let r := find c s' in if (r <? 0)%Z then -1 else (r + 1)%Z
  end.

(** The slice [s[k:]]; a negative [k] counts from the end. *)
Definition slice_from (k : Z) (s : str) : str :=
  if (k <? 0)%Z then drop (Z.to_nat (Z.max 0 (Z.of_nat (length s) + k))) s
  else drop (Z.to_nat k) s.

(** [sep.join(l)] *)
Fixpoint join (sep : str) (l : list str) : str :=
  match l with
  | [] => []
  | [x] => x
  | x :: l' => x ++ sep ++ join sep l'
  end.

(** [" " * n]: empty for a negative [n]. *)
Definition spaces (n : Z) : str := repeat SP (Z.to_nat n).

(** [re.sub(r"`(.*?)`", rf"{rst}`\1`{color}", msg)]: every span between a
    backtick and the next backtick on the same line is wrapped; [.] does
    not match a line feed, so a backtick with no partner before the end of
    its line stays as it is.  [pending] is [Some acc] after an opening
    backtick, [acc] holding the characters read since, in reverse. *)
Fixpoint re_sub_scan (rst color : str) (pending : option str) (msg : str) : str :=
  match msg, pending with
  | [], None => []
  | [], Some acc => BACKTICK :: rev acc
  | c :: msg', None =>
      if (c =? BACKTICK)%N then re_sub_scan rst color (Some []) msg'
      else c :: re_sub_scan rst color None msg'
  | c :: msg', Some acc =>
      if (c =? BACKTICK)%N then
        rst ++ [BACKTICK] ++ rev acc ++ [BACKTICK] ++ color
            ++ re_sub_scan rst color None msg'
      else if (c =? LF)%N then
        BACKTICK :: rev acc ++ LF :: re_sub_scan rst color None msg'
      else re_sub_scan rst color (Some (c :: acc)) msg'
  end.

Definition re_sub_backticks (rst color msg : str) : str :=
  re_sub_scan rst color None msg.

(** Text-mode reading translates [\r\n] and a lone [\r] to [\n]. *)
Fixpoint universal_newlines (s : str) : str :=
  match s with
  | [] => []
  | c :: s' =>
      if (c =? CR)%N then
        LF :: match s' with
              | d :: s'' => if (d =? LF)%N then universal_newlines s''
                            else universal_newlines s'
              | [] => []
              end
      else c :: universal_newlines s'
  end.

(** The lines of a text, each with its line feed (the last one may lack
    it): what iterating a text stream yields. *)
Fixpoint keep_lines (s : str) : list str :=
  match s with
  | [] => []
  | c :: s' =>
      if (c =? LF)%N then [LF] :: keep_lines s'
      else match keep_lines s' with
           | l :: ls => (c :: l) :: ls
           | [] => [[c]]
           end
  end.

(** ** Colours

    [class Color].  [_strip_colors] may blank the attributes at start-up,
    so the functions read them from the current value [col]; the
    [partial] applications [psuccess], [pwarn], [perr] and [pinfo] bind
    their colour when the module is loaded, from [ansi]. *)

Record Color := {
  RED : str; GRN : str; YLW : str; BLU : str; MAG : str; CYN : str;
  DIM : str; BLD : str; RST : str
}.

Definition ESC : char := 27%N.

Definition ansi : Color := {|
  RED := ESC :: u "[91m"; GRN := ESC :: u "[92m"; YLW := ESC :: u "[93m";
  BLU := ESC :: u "[94m"; MAG := ESC :: u "[95m"; CYN := ESC :: u "[96m";
  DIM := ESC :: u "[2m"; BLD := ESC :: u "[1m"; RST := ESC :: u "[0m"
|}.

Definition stripped : Color := {|
  RED := []; GRN := []; YLW := []; BLU := []; MAG := []; CYN := [];
  DIM := []; BLD := []; RST := []
|}.

(** ** The operating system and the script state *)

Definition path := list str.

Inductive node := File (content : str) | Dir.

Record OS := {
  cwd : path;
  fs : gmap path node;
  on_path : gset str;
  stdin : list str
}.

(** An exception object: [e.__class__.__name__] and [str(e)]. *)
Record Fault := { exc_class : str; exc_str : str }.

(** A child process that has finished, as the script sees it.  Each pipe
    delivers decoded text lines and then either ends or raises: with
    [text=True] and [encoding="utf-8"] the bytes of the child are decoded
    while the loop reads, and bytes that are not UTF-8 raise
    [UnicodeDecodeError] at the line they would belong to.  [returncode] is
    what [process.wait()] returns.  A child that never ends has no exit
    status and is not a [Process]: with such a child [run_cmd] does not
    return. *)
Record Process := {
  p_stdout : list str;
  p_stdout_fault : option Fault;
  p_stderr : list str;
  p_stderr_fault : option Fault;
  returncode : Z
}.

(** What the script does to the outside, in order: a chunk written to the
    terminal, or a call of [Popen]. *)
Inductive event :=
| Out (text : str)
| Run (cmd : str) (captured : bool).

Record State := { os : OS; trace : list event }.

Inductive outcome (A : Type) :=
| Ret (a : A)
| Exit (code : Z)
| Raise (e : Fault).
Arguments Ret {A} a.
Arguments Exit {A} code.
Arguments Raise {A} e.

Definition M (A : Type) : Type := State -> outcome A * State.

Definition ret {A} (a : A) : M A := fun s => (Ret a, s).

Definition bind {A B} (m : M A) (k : A -> M B) : M B :=
  fun s =>
    match m s with
    | (Ret a, s') => k a s'
    | (Exit c, s') => (Exit c, s')
    | (Raise e, s') => (Raise e, s')
    end.

Declare Scope py_scope.
Delimit Scope py_scope with py.
Bind Scope py_scope with M.

Notation "x ← y ; z" := (bind y (fun x => z))
  (at level 20, y at level 100, z at level 200, only parsing) : py_scope.
Notation "x ;; z" := (bind x (fun _ => z))
  (at level 100, z at level 200, only parsing, right associativity) : py_scope.

Local Open Scope py_scope.

(** [sys.exit(code)] *)
Definition sys_exit {A} (code : Z) : M A := fun s => (Exit code, s).

Definition raise {A} (e : Fault) : M A := fun s => (Raise e, s).

(** [try: body / except Exception as e: handler e / else: els]; the exit
    of the process is not an [Exception] and passes through. *)
Definition try_except_else {A B}
    (body : M A) (handler : Fault -> M B) (els : A -> M B) : M B :=
  fun s =>
    match body s with
    | (Ret a, s') => els a s'
    | (Raise e, s') => handler e s'
    | (Exit c, s') => (Exit c, s')
    end.

Definition emit (e : event) : M unit :=
  fun s => (Ret tt, {| os := os s; trace := trace s ++ [e] |}).

(** [print(x, end=end_)] *)
Definition print (x end_ : str) : M unit := emit (Out (x ++ end_)).

Definition get_os : M OS := fun s => (Ret (os s), s).

Definition set_os (o : OS) : M unit :=
  fun s => (Ret tt, {| os := o; trace := trace s |}).

(** The commands handed to [Popen] so far, oldest first. *)
Fixpoint cmds_run (t : list event) : list str :=
  match t with
  | [] => []
  | Run cmd _ :: t' => cmd :: cmds_run t'
  | Out _ :: t' => cmds_run t'
  end.


(** ** Operating-system calls *)

(** A [pathlib.Path]: absolute, or relative to the working directory. *)
Inductive Path := Abs (parts : path) | Rel (parts : path).

Definition locate (o : OS) (p : Path) : path :=
  match p with
  | Abs q => q
  | Rel q => cwd o ++ q
  end.

(** [str(p)] of an absolute path, POSIX flavour. *)
Definition path_str (p : path) : str :=
  match p with
  | [] => u "/"
  | _ => concat (map (fun c => u "/" ++ c) p)
  end.

Definition os_fault (cls msg : string) : Fault :=
  {| exc_class := u cls; exc_str := u msg |}.

(** [str(p)] of a path as the script writes it. *)
Definition Path_str (p : Path) : str :=
  match p with
  | Abs q => path_str q
  | Rel [] => u "."
  | Rel q => join (u "/") q
  end.

Definition hex_digit (n : N) : char :=
  if (n <? 10)%N then (48 + n)%N else (87 + n)%N.

(** One character inside [repr(s)].  Code points from U+0100 on are taken
    as printable. *)
Definition repr_char (quote c : char) : str :=
  if ((c =? quote) || (c =? 92))%N then [92%N; c]
  else if (c =? 9)%N then [92%N; 116%N]
  else if (c =? LF)%N then [92%N; 110%N]
  else if (c =? CR)%N then [92%N; 114%N]
  else if ((c <? 32) || (127 <=? c) && (c <=? 160) || (c =? 173))%N
  then [92%N; 120%N; hex_digit (c / 16); hex_digit (c mod 16)]
  else [c].

(** [repr(s)] of a text: in single quotes, or in double quotes when the
    text holds a single quote and no double quote. *)
Definition py_repr (s : str) : str :=
  let quote :=
    if has_char 39%N s && negb (has_char 34%N s) then 34%N else 39%N in
  [quote] ++ concat (map (repr_char quote) s) ++ [quote].

(** [str(e)] of an [OSError] with an error number and a file name. *)
Definition os_error (cls errno strerror : string) (filename : str) : Fault :=
  {| exc_class := u cls;
     exc_str := u "[Errno " ++ u errno ++ u "] " ++ u strerror ++ u ": "
                  ++ filename |}.

(** The faults of opening [p] through [io.open], which names the file by
    its text. *)
Definition is_a_directory (p : Path) : Fault :=
  os_error "IsADirectoryError" "21" "Is a directory" (py_repr (Path_str p)).
Definition no_such_file (p : Path) : Fault :=
  os_error "FileNotFoundError" "2" "No such file or directory"
    (py_repr (Path_str p)).

(** The faults of the calls of [os] on a path object, which they name by
    its [repr]. *)
Definition posix_path_repr (p : Path) : str :=
  u "PosixPath(" ++ py_repr (Path_str p) ++ u ")".

(** The working directory has been removed. *)
Definition cwd_removed : Fault :=
  os_fault "FileNotFoundError" "[Errno 2] No such file or directory".

(** [Path.cwd()], that is [os.getcwd()]: raises when no directory is left
    at the place of the working directory. *)
Definition getcwd : M path :=
  o ← get_os;
  match fs o !! cwd o with
  | Some Dir => ret (cwd o)
  | _ => raise cwd_removed
  end.

(** [os.chdir(p)] for an absolute [p]: raises unless [p] is a directory. *)
Definition chdir (p : path) : M unit :=
  o ← get_os;
  match fs o !! p with
  | Some Dir =>
      set_os {| cwd := p; fs := fs o; on_path := on_path o; stdin := stdin o |}
  | Some (File _) =>
      raise (os_error "NotADirectoryError" "20" "Not a directory"
               (posix_path_repr (Abs p)))
  | None =>
      raise (os_error "FileNotFoundError" "2" "No such file or directory"
               (posix_path_repr (Abs p)))
  end.

(** [p.exists()] *)
Definition path_exists (p : Path) : M bool :=
  o ← get_os; ret (bool_decide (is_Some (fs o !! locate o p))).

(** [p.read_text(encoding="utf-8")] *)
Definition read_text (p : Path) : M str :=
  o ← get_os;
  match fs o !! locate o p with
  | Some (File content) => ret (universal_newlines content)
  | Some Dir => raise (is_a_directory p)
  | None => raise (no_such_file p)
  end.

(** [for line in p.open(encoding="utf-8")]: the lines the loop will see. *)
Definition open_lines (p : Path) : M (list str) :=
  content ← read_text p; ret (keep_lines content).

(** [p.write_text(content, encoding="utf-8")] *)
Definition write_text (p : Path) (content : str) : M unit :=
  o ← get_os;
  match fs o !! locate o p with
  | Some Dir => raise (is_a_directory p)
  | _ =>
      set_os {| cwd := cwd o; fs := <[locate o p := File content]> (fs o);
                on_path := on_path o; stdin := stdin o |}
  end.

(** [p.mkdir(parents=True, exist_ok=True)]; the ancestors of the paths the
    script creates are the working directory and its ancestors. *)
Definition mkdir_p (p : Path) : M unit :=
  o ← get_os;
  match fs o !! locate o p with
  | Some Dir => ret tt
  | Some (File _) =>
      raise (os_error "FileExistsError" "17" "File exists" (posix_path_repr p))
  | None =>
      set_os {| cwd := cwd o; fs := <[locate o p := Dir]> (fs o);
                on_path := on_path o; stdin := stdin o |}
  end.

(** [shutil.which(name)], as a truth value. *)
Definition which (name : str) : M bool :=
  o ← get_os; ret (bool_decide (name ∈ on_path o)).

(** [input(prompt)]: writes the prompt and reads one line. *)
Definition input (prompt : str) : M str :=
  print prompt [];;
  o ← get_os;
  match stdin o with
  | [] => raise (os_fault "EOFError" "EOF when reading a line")
  | ans :: rest =>
      set_os {| cwd := cwd o; fs := fs o; on_path := on_path o; stdin := rest |};;
      ret ans
  end.

(** [s.lower()] on the letters A to Z.  No other code point has a lower
    case that is the letter y or white space, so the comparison in
    [yn_prompt] is decided exactly. *)
Definition lower_char (c : char) : char :=
  if ((65 <=? c) && (c <=? 90))%N then (c + 32)%N else c.

Definition lower (s : str) : str := map lower_char s.

(** ** The script *)

Definition ENV_KEYS : gset str :=
  {[ u "RECAPTCHA_SECRET_KEY"; u "ARGON_MEM_COST"; u "ARGON_TIME_COST";
     u "ARGON_THREADS" ]}.

Definition CHECK : str := [0x2713%N].
Definition BANG : str := u "!".
Definition CROSS : str := [0x2717%N].
Definition ARROW : str := [0x2192%N].

Definition progress_prefix : str := u "Progress".

Definition mkcert_install_cmd : str := u "mkcert -install".

Definition mkcert_generate_cmd : str :=
  u "mkcert -key-file certs/localhost-key.pem -cert-file certs/localhost.pem localhost".

(** [install_cmds], in insertion order. *)
Definition install_cmds : list (str * str) :=
  [ (u "brew", u "brew install mkcert");
    (u "choco", u "choco install mkcert -y");
    (u "scoop", u "scoop install mkcert");
    (u "apt", u "sudo apt update && sudo apt install -y mkcert");
    (u "dnf", u "sudo dnf install -y mkcert");
    (u "pacman", u "sudo pacman -S mkcert") ].

Section Script.

(** The current attributes of [Color]. *)
Variable col : Color.

(** [ROOT_DIR], the parent of the directory that holds the script. *)
Variable ROOT_DIR : path.

(** The order in which iterating the set [ENV_KEYS] yields its
    elements; the language leaves it open. *)
Variable ENV_KEYS_iter : list str.

(** [subprocess.Popen(cmd, shell=True, ...)]: a fault, or the child and
    the system as the child leaves it. *)
Variable os_popen : str -> bool -> OS -> Fault + (Process * OS).

(** The text [_print] builds:
    [f"{padding}{color}{prefix}{msg}{Color.RST}"]. *)
Definition _print_text (msg : str) (prefix : option str) (indent : Z)
    (color : str) : str :=
  let msg :=
    if bool_decide (color ≠ DIM col)
    then re_sub_backticks (RST col) color msg else msg in
  let prefix :=
    match prefix with
    | None => []
    | Some p => p ++ u " "
    end in
  let padding := spaces indent in
  padding ++ color ++ prefix ++ msg ++ RST col.

(** [_print(msg, prefix=prefix, indent=indent, color=color, end=end_)] *)
Definition _print (msg : str) (prefix : option str) (indent : Z)
    (color : str) (end_ : str) : M unit :=
  print (_print_text msg prefix indent color) end_.

(** [psec(title)] *)
Definition psec (title : str) : M unit :=
  print ([LF] ++ BLD col ++ u "[" ++ title ++ u "]" ++ RST col) [LF].

Definition psuccess (msg : str) (indent : Z) : M unit :=
  _print msg (Some CHECK) indent (GRN ansi) [LF].
Definition pwarn (msg : str) (indent : Z) : M unit :=
  _print msg (Some BANG) indent (YLW ansi) [LF].
Definition perr (msg : str) (indent : Z) : M unit :=
  _print msg (Some CROSS) indent (RED ansi) [LF].
Definition pinfo (msg : str) (indent : Z) : M unit :=
  _print msg (Some ARROW) indent (BLU ansi) [LF].

(** [yn_prompt(prompt, indent)] *)
Definition yn_prompt (prompt : str) (indent : Z) : M bool :=
  let padding := spaces indent in
  ans ← input (padding ++ prompt ++ u " (y/n): ");
  ret (bool_decide (strip (lower ans) = u "y")).

(** [sp.Popen(...)] as called by [run_cmd]; the call is logged whether
    or not the child could be created. *)
Definition Popen (cmd : str) (output : bool) : M Process :=
  emit (Run cmd output);;
  o ← get_os;
  match os_popen cmd output o with
  | inl e => raise e
  | inr (p, o') => set_os o';; ret p
  end.

(** The body of both reading loops for a non-blank stripped [line]
    (lines 174-184 and 191-201): returns the new [starts_w_progress]. *)
Definition render_line (indent : Z) (line : str) (starts_w_progress : bool)
    : M bool :=
  let flag : M bool :=
    if startswith line progress_prefix then ret true
    else if starts_w_progress then print [] [LF];; ret false
    else ret starts_w_progress in
  starts_w_progress ← flag;
  _print (u " | " ++ line) None indent (DIM col)
         (if starts_w_progress then [CR] else [LF]);;
  ret starts_w_progress.

(** [for line in process.stdout], on [(printed, starts_w_progress)]. *)
Fixpoint stdout_loop (indent : Z) (lines : list str) (st : bool * bool)
    : M (bool * bool) :=
  match lines with
  | [] => ret st
  | line :: rest =>
      let line := strip line in
      if truthy line then
        starts_w_progress ← render_line indent line st.2;
        stdout_loop indent rest (true, starts_w_progress)
      else stdout_loop indent rest st
  end.

(** [for line in process.stderr], on [starts_w_progress]. *)
Fixpoint stderr_loop (indent : Z) (lines : list str) (starts_w_progress : bool)
    : M bool :=
  match lines with
  | [] => ret starts_w_progress
  | line :: rest =>
      let line := strip line in
      if truthy line then
        starts_w_progress ← render_line indent line starts_w_progress;
        stderr_loop indent rest starts_w_progress
      else stderr_loop indent rest starts_w_progress
  end.

(** Where the lines of a stream run out: the iteration stops, or raises
    the fault met on reading further. *)
Definition stream_end (fault : option Fault) : M unit :=
  match fault with
  | None => ret tt
  | Some e => raise e
  end.

(** [run_cmd(cmd, indent=indent, output=output)] *)
Definition run_cmd (cmd : str) (indent : Z) (output : bool) : M bool :=
  try_except_else
    (process ← Popen cmd output;
     if output then
       st ← stdout_loop indent (p_stdout process) (false, false);
       stream_end (p_stdout_fault process);;
       let printed := st.1 in
       let starts_w_progress := st.2 in
       let return_code := returncode process in
       (if negb printed
        then stderr_loop indent (p_stderr process) starts_w_progress;;
             stream_end (p_stderr_fault process)
        else ret tt);;
       ret return_code
     else
       ret (returncode process))
    (fun e =>
       print (exc_class e ++ u " " ++ exc_str e) [LF];;
       perr (u "Failed to run command `" ++ cmd ++ u "`: " ++ exc_str e) indent;;
       ret false)
    (fun return_code => ret (bool_decide (return_code = 0%Z))).

(** The loop of [install_mkcert] and what follows it. *)
Fixpoint install_loop (cmds : list (str * str)) : M bool :=
  match cmds with
  | [] =>
      perr (u "No supported package manager found") 4;;
      pinfo (u "Please install mkcert manually (https://github.com/FiloSottile/mkcert)") 4;;
      ret false
  | (pm, cmd) :: rest =>
      found ← which pm;
      if found then
        pinfo (u "Installing via " ++ pm) 4;;
        ok ← run_cmd cmd 6 true;
        if ok then
          psuccess (u "mkcert installed successfully") 4;;
          ret true
        else install_loop rest
      else install_loop rest
  end.

(** [install_mkcert()] *)
Definition install_mkcert : M bool :=
  pinfo (u "Installing mkcert...") 2;;
  install_loop install_cmds.

(** [check_pwd()] *)
Definition check_pwd : M unit :=
  psec (u "Directory");;
  cwd ← getcwd;
  pinfo (u "Current dir: `" ++ path_str cwd ++ u "`") 2;;
  (if bool_decide (ROOT_DIR ≠ cwd) then
     pwarn (u "Current dir is not the root directory") 2;;
     pinfo (u "Changing root dir: `" ++ path_str ROOT_DIR ++ u "`") 2;;
     chdir ROOT_DIR
   else ret tt);;
  psuccess (u "Current dir is valid") 2.

(** The loop of [check_env] over the lines of [.env], on [err]. *)
Fixpoint env_loop (lines : list str) (err : bool) : M bool :=
  match lines with
  | [] => ret err
  | line :: rest =>
      if startswith line [HASH] || negb (truthy (strip line)) then
        env_loop rest err
      else if negb (has_char EQUALS line) then
        perr (u "Invalid line in `.env`: " ++ strip line) 2;;
        env_loop rest true
      else
        match split1 EQUALS line with
        | [key; val] =>
            if negb (bool_decide (strip key ∈ ENV_KEYS)) then
              perr (u "Unknown key in `.env`: " ++ key
                      ++ u " (expected one of "
                      ++ join (u ", ") ENV_KEYS_iter ++ u ")") 2;;
              env_loop rest true
            else if negb (truthy (strip val)) then
              perr (u "Empty value for key `.env`: " ++ key) 2;;
              env_loop rest true
            else env_loop rest err
        | _ =>
            raise (os_fault "ValueError"
                     "not enough values to unpack (expected 2, got 1)")
        end
  end.

(** [check_env()] *)
Definition check_env : M unit :=
  psec (u "Environment");;
  let env_file := Rel [u ".env"] in
  present ← path_exists env_file;
  if present then
    lines ← open_lines env_file;
    err ← env_loop lines false;
    (if err then sys_exit 2 else ret tt);;
    psuccess (u "`.env` is valid") 2
  else
    pwarn (u "No `.env` file found.") 2;;
    template ← path_exists (Rel [u ".env.example"]);
    (if negb template then
       perr (u "Missing `.env.example` file. Cannot create `.env`") 2;;
       sys_exit 2
     else ret tt);;
    env_content ← read_text (Rel [u ".env.example"]);
    write_text env_file
      (slice_from (find LF env_content + 1) env_content);;
    pinfo (u "Created `.env` from `.env.example`") 2;;
    perr (u "Missing required values in `.env` (contact darragh0)") 2;;
    sys_exit 2.

Definition certs_dir : path := ROOT_DIR ++ [u "certs"].

(** [check_certs], lines 304-309: the certificates directory. *)
Definition check_certs_dir : M unit :=
  psec (u "Certificates");;
  present ← path_exists (Abs certs_dir);
  if negb present then
    mkdir_p (Rel [u "certs"]);;
    pinfo (u "Created `certs` dir") 2
  else ret tt.

(** [check_certs], lines 311-322: the certificate tool. *)
Definition check_certs_tool : M unit :=
  found ← which (u "mkcert");
  if negb found then
    perr (u "mkcert is not installed") 2;;
    install ← yn_prompt (u "Install mkcert?") 2;
    (if negb install then
       perr (u "Please install mkcert to continue (https://github.com/FiloSottile/mkcert)") 0;;
       sys_exit 3
     else ret tt);;
    installed ← install_mkcert;
    if negb installed then
      perr (u "Failed to install mkcert. Please install manually (https://github.com/FiloSottile/mkcert)") 0;;
      sys_exit 3
    else ret tt
  else psuccess (u "mkcert is installed") 2.

(** [check_certs], lines 324-327: the local certificate authority. *)
Definition check_certs_ca : M unit :=
  pinfo (u "Installing local CA") 2;;
  ok ← run_cmd mkcert_install_cmd 4 true;
  if negb ok then
    perr (u "Failed to install local CA") 2;;
    sys_exit 3
  else ret tt.

(** [check_certs], lines 329-336: the certificate pair. *)
Definition check_certs_pair : M unit :=
  key_exists ← path_exists (Abs (certs_dir ++ [u "localhost-key.pem"]));
  both_files_exist ←
    (if key_exists
     then path_exists (Abs (certs_dir ++ [u "localhost.pem"]))
     else ret false);
  (if negb both_files_exist then
     pinfo (u "Generating certificates") 2;;
     ok ← run_cmd mkcert_generate_cmd 4 true;
     if negb ok then
       perr (u "Failed to generate certificates") 2;;
       sys_exit 3
     else ret tt
   else ret tt);;
  psuccess (u "Certificates are valid") 2.

(** [check_certs()] *)
Definition check_certs : M unit :=
  check_certs_dir;;
  check_certs_tool;;
  check_certs_ca;;
  check_certs_pair.

End Script.

(** ** Notions of the specification *)

(** The chunks the printing helpers add to the log. *)
Definition psec_event (col : Color) (title : str) : event :=
  Out ([LF] ++ BLD col ++ u "[" ++ title ++ u "]" ++ RST col ++ [LF]).
Definition psuccess_event (col : Color) (msg : str) (indent : Z) : event :=
  Out (_print_text col msg (Some CHECK) indent (GRN ansi) ++ [LF]).
Definition pwarn_event (col : Color) (msg : str) (indent : Z) : event :=
  Out (_print_text col msg (Some BANG) indent (YLW ansi) ++ [LF]).
Definition perr_event (col : Color) (msg : str) (indent : Z) : event :=
  Out (_print_text col msg (Some CROSS) indent (RED ansi) ++ [LF]).
Definition pinfo_event (col : Color) (msg : str) (indent : Z) : event :=
  Out (_print_text col msg (Some ARROW) indent (BLU ansi) ++ [LF]).

(** A captured output line as [run_cmd] renders it, without its ending. *)
Definition rendered (col : Color) (indent : Z) (line : str) : str :=
  _print_text col (u " | " ++ strip line) None indent (DIM col).

(** The state [s] after the events [evs]. *)
Definition appended (s : State) (evs : list event) : State :=
  {| os := os s; trace := trace s ++ evs |}.

(** What one rendered line adds to the log, [flag] being the value of
    [starts_w_progress] when it is read. *)
Definition line_events (col : Color) (indent : Z) (line : str) (flag : bool)
    : list event :=
  let progress := startswith (strip line) progress_prefix in
  (if negb progress && flag then [Out [LF]] else [])
    ++ [Out (rendered col indent line ++ (if progress then [CR] else [LF]))].


(** Comment and blank lines of the configuration file. *)
Definition is_comment (line : str) : bool := startswith line [HASH].
Definition is_blank (line : str) : bool := negb (truthy (strip line)).

(** The text before the first separator of a line and the text after it. *)
Fixpoint before_sep (line : str) : str :=
  match line with
  | [] => []
  | c :: rest => if (c =? EQUALS)%N then [] else c :: before_sep rest
  end.

Fixpoint after_sep (line : str) : str :=
  match line with
  | [] => []
  | c :: rest => if (c =? EQUALS)%N then rest else after_sep rest
  end.

Definition recognized (key : str) : bool := bool_decide (key ∈ ENV_KEYS).

(** A line that is a recognized key with a non-empty value. *)
Definition well_formed (line : str) : bool :=
  has_char EQUALS line
  && recognized (strip (before_sep line))
  && truthy (strip (after_sep line)).

(** A malformed line: not a comment, not blank, and with no separator, an
    unrecognized key or a value that is empty after trimming. *)
Definition malformed (line : str) : bool :=
  negb (is_comment line) && negb (is_blank line)
  && (negb (has_char EQUALS line)
      || negb (recognized (strip (before_sep line)))
      || negb (truthy (strip (after_sep line)))).

(** The message that reports a malformed line. *)
Definition env_diagnostic (ENV_KEYS_iter : list str) (line : str) : str :=
  if negb (has_char EQUALS line) then
    u "Invalid line in `.env`: " ++ strip line
  else if negb (recognized (strip (before_sep line))) then
    u "Unknown key in `.env`: " ++ before_sep line ++ u " (expected one of "
      ++ join (u ", ") ENV_KEYS_iter ++ u ")"
  else u "Empty value for key `.env`: " ++ before_sep line.

(** The log entry that reports a malformed line. *)
Definition report (col : Color) (ENV_KEYS_iter : list str) (line : str)
    : event :=
  perr_event col (env_diagnostic ENV_KEYS_iter line) 2.

(** The text [check_env] iterates over when [.env] holds [content]. *)
Definition env_lines (content : str) : list str :=
  keep_lines (universal_newlines content).

Definition env_path (o : OS) : path := cwd o ++ [u ".env"].
Definition template_path (o : OS) : path := cwd o ++ [u ".env.example"].

(** A template's content with its first line removed. *)
Definition without_first_line (content : str) : str :=
  concat (tail (keep_lines content)).

Definition key_pem (ROOT_DIR : path) : path :=
  ROOT_DIR ++ [u "certs"; u "localhost-key.pem"].
Definition cert_pem (ROOT_DIR : path) : path :=
  ROOT_DIR ++ [u "certs"; u "localhost.pem"].

(** Both certificate artifacts exist. *)
Definition pair_present (ROOT_DIR : path) (o : OS) : bool :=
  bool_decide (is_Some (fs o !! key_pem ROOT_DIR))
  && bool_decide (is_Some (fs o !! cert_pem ROOT_DIR)).

Definition nonblank (line : str) : bool := truthy (strip line).

(** The fault [run_cmd] meets while it reads the output of the child [p],
    if any: nothing is read when the streams are inherited; standard error
    is read only when standard output was read to its end and held no line
    to print. *)
Definition read_fault (output : bool) (p : Process) : option Fault :=
  if output then
    match p_stdout_fault p with
    | Some e => Some e
    | None =>
        if existsb nonblank (p_stdout p) then None else p_stderr_fault p
    end
  else None.

(** The answer of [run_cmd] once the child [p] is created. *)
Definition run_answer (output : bool) (p : Process) : bool :=
  match read_fault output p with
  | None => bool_decide (returncode p = 0%Z)
  | Some _ => false
  end.

(** The two lines with which [run_cmd] reports a fault it has caught. *)
Definition fault_report (col : Color) (cmd : str) (indent : Z) (e : Fault)
    : list event :=
  [Out (exc_class e ++ u " " ++ exc_str e ++ [LF]);
   perr_event col (u "Failed to run command `" ++ cmd ++ u "`: " ++ exc_str e)
     indent].

(** What a captured command amounts to for its caller: whether it
    succeeded, and the system it leaves. *)
Definition cmd_result (os_popen : str -> bool -> OS -> Fault + (Process * OS))
    (cmd : str) (o : OS) : bool * OS :=
  match os_popen cmd true o with
  | inl _ => (false, o)
  | inr (p, o') => (run_answer true p, o')
  end.

(** No manager of the list is found on the search path, or the install
    command of every manager found fails; each manager is probed in the
    system left by the commands before it. *)
Fixpoint all_fail (os_popen : str -> bool -> OS -> Fault + (Process * OS))
    (cmds : list (str * str)) (o : OS) : bool :=
  match cmds with
  | [] => true
  | (pm, cmd) :: rest =>
      if bool_decide (pm ∈ on_path o) then
        negb (cmd_result os_popen cmd o).1
        && all_fail os_popen rest (cmd_result os_popen cmd o).2
      else all_fail os_popen rest o
  end.

Definition with_stdin (o : OS) (lines : list str) : OS :=
  {| cwd := cwd o; fs := fs o; on_path := on_path o; stdin := lines |}.

Definition with_cwd (o : OS) (p : path) : OS :=
  {| cwd := p; fs := fs o; on_path := on_path o; stdin := stdin o |}.

Definition with_file (o : OS) (p : path) (content : str) : OS :=
  {| cwd := cwd o; fs := <[p := File content]> (fs o);
     on_path := on_path o; stdin := stdin o |}.

(** The install commands [install_mkcert] hands to [Popen]: those of the
    managers found on the search path, in the order of the list, up to
    the first that succeeds. *)
Fixpoint attempts (os_popen : str -> bool -> OS -> Fault + (Process * OS))
    (cmds : list (str * str)) (o : OS) : list str :=
  match cmds with
  | [] => []
  | (pm, cmd) :: rest =>
      if bool_decide (pm ∈ on_path o) then
        cmd :: (if (cmd_result os_popen cmd o).1 then []
                else attempts os_popen rest (cmd_result os_popen cmd o).2)
      else attempts os_popen rest o
  end.

(** [check_certs] up to line 327, before the certificate pair is looked
    at. *)
Definition check_certs_before_pair (col : Color) (ROOT_DIR : path)
    (os_popen : str -> bool -> OS -> Fault + (Process * OS)) : M unit :=
  check_certs_dir col ROOT_DIR;;
  check_certs_tool col os_popen;;
  check_certs_ca col os_popen.

(** ** Sample systems *)

Definition quiet (code : Z) : Process :=
  {| p_stdout := []; p_stdout_fault := None;
     p_stderr := []; p_stderr_fault := None; returncode := code |}.

(** A child whose output is read to the end of both streams. *)
Definition child (out err : list str) (code : Z) : Process :=
  {| p_stdout := out; p_stdout_fault := None;
     p_stderr := err; p_stderr_fault := None; returncode := code |}.

(** What decoding the byte [0xff] raises. *)
Definition not_utf8 : Fault :=
  os_fault "UnicodeDecodeError"
    "'utf-8' codec can't decode byte 0xff in position 0: invalid start byte".

(** A child that writes a byte that is not UTF-8 on standard output and
    ends with exit status 0. *)
Definition popen_garbled (cmd : str) (output : bool) (o : OS)
    : Fault + (Process * OS) :=
  inr ({| p_stdout := []; p_stdout_fault := Some not_utf8;
          p_stderr := []; p_stderr_fault := None; returncode := 0 |}, o).

(** Every command succeeds and changes nothing. *)
Definition popen_ok (cmd : str) (output : bool) (o : OS)
    : Fault + (Process * OS) := inr (quiet 0, o).

(** No command can be started. *)
Definition popen_fault (cmd : str) (output : bool) (o : OS)
    : Fault + (Process * OS) :=
  inl (os_fault "PermissionError" "[Errno 13] Permission denied").

(** Homebrew's install fails; every other command succeeds. *)
Definition popen_brew_fails (cmd : str) (output : bool) (o : OS)
    : Fault + (Process * OS) :=
  inr (quiet (if bool_decide (cmd = u "brew install mkcert") then 1 else 0), o).


Definition project : path := [u "home"; u "dev"; u "CloudWorx-WApp"].

(** A system whose working directory is the project root, which holds
    [files]. *)
Definition sample_os (files : list (path * node)) (bins : list str)
    (answers : list str) : OS :=
  {| cwd := project; fs := list_to_map ((project, Dir) :: files);
     on_path := list_to_set bins; stdin := answers |}.

(** The same system seen from a working directory that has been
    removed. *)
Definition os_removed_cwd : OS :=
  {| cwd := [u "tmp"; u "build"];
     fs := list_to_map [(project, Dir)];
     on_path := ∅; stdin := [] |}.

(** A ready checkout entered from the home directory. *)
Definition os_from_home (files : list (path * node)) : OS :=
  {| cwd := [u "home"; u "dev"];
     fs := list_to_map (([u "home"; u "dev"], Dir) :: (project, Dir) :: files);
     on_path := ∅; stdin := [] |}.

Definition start (o : OS) : State := {| os := o; trace := [] |}.

(** A checkout whose [.env] repeats a key. *)
Definition os_repeated_key : OS :=
  sample_os
    [(project ++ [u ".env"],
      File (u "ARGON_THREADS=1" ++ [LF] ++ u "ARGON_THREADS=2" ++ [LF]))]
    [] [].

(** A checkout with a one-line template that has no line feed. *)
Definition os_one_line_template : OS :=
  sample_os [(project ++ [u ".env.example"], File (u "# header"))] [] [].

(** A checkout whose two certificate files exist and are empty. *)
Definition os_empty_pair : OS :=
  sample_os
    [(project ++ [u "certs"], Dir);
     (key_pem project, File []);
     (cert_pem project, File [])]
    [u "mkcert"] [].

(** A machine without the certificate tool, with Homebrew and apt, whose
    user accepts the installation. *)
Definition os_two_managers : OS :=
  sample_os [(project ++ [u "certs"], Dir)] [u "brew"; u "apt"] [u "y"].

(** ** The dependency check and the entry point *)

Definition QUOTE : char := 34%N.

(** The characters at which [str.splitlines()] breaks a line. *)
Definition is_linebreak (c : char) : bool :=
  ((10 <=? c) && (c <=? 13) || (28 <=? c) && (c <=? 30)
   || (c =? 0x85) || (c =? 0x2028) || (c =? 0x2029))%N.

(** [s.splitlines()]: the lines without their ends; [\r\n] is one line
    end, and a final line end opens no further line.  [cur] holds the
    characters of the current line, in reverse. *)
Fixpoint splitlines_from (cur : str) (s : str) : list str :=
  match s with
  | [] =>
      match cur with
      | [] => []
      | _ :: _ => [rev cur]
      end
  | c :: s' =>
      if (c =? CR)%N then
        rev cur :: match s' with
                   | d :: s'' => if (d =? LF)%N then splitlines_from [] s''
                                 else splitlines_from [] s'
                   | [] => []
                   end
      else if is_linebreak c then rev cur :: splitlines_from [] s'
      else splitlines_from (c :: cur) s'
  end.

Definition splitlines (s : str) : list str := splitlines_from [] s.

Section Pipeline.

Variable col : Color.
Variable ROOT_DIR : path.
Variable ENV_KEYS_iter : list str.
Variable os_popen : str -> bool -> OS -> Fault + (Process * OS).

(** [platform.system()] *)
Variable platform_system : str.

(** The answer of [is_admin()]. *)
Variable user_is_admin : bool.

(** The f-string [banner] of [pbanner] (lines 99-124), with the current
    colours filled in. *)
Variable banner : str.

(** [pwindows_tip()] *)
Definition pwindows_tip : M unit :=
  _print col
    (u "Start-Process wt.exe -Verb RunAs -ArgumentList " ++ [QUOTE]
       ++ u "python $PWD\init-scripts\init.py" ++ [QUOTE])
    None 4 (DIM col) [LF].

(** [for line in lines: sleep(0.025); print(line, flush=True)] *)
Fixpoint print_each (lines : list str) : M unit :=
  match lines with
  | [] => ret tt
  | line :: rest => print line [LF];; print_each rest
  end.

(** [pbanner()] *)
Definition pbanner : M unit := print_each (splitlines banner).

(** [sp.run(cmd, shell=True, check=False)]: the streams are inherited,
    the exit status is ignored and a fault of the spawn is not caught. *)
Definition sp_run (cmd : str) : M unit :=
  emit (Run cmd false);;
  o ← get_os;
  match os_popen cmd false o with
  | inl e => raise e
  | inr (_, o') => set_os o'
  end.

(** [check_nodejs()] *)
Definition check_nodejs : M unit :=
  psec col (u "Dependencies");;
  present ← path_exists (Rel [u "package.json"]);
  (if negb present then
     perr col (u "Missing required `package.json` file") 2;;
     sys_exit 4
   else ret tt);;
  nodejs ← which (u "node");
  (if negb nodejs then
     perr col (u "Node.js is not installed") 2;;
     perr col (u "Please install it to continue (https://nodejs.org)") 2;;
     sys_exit 4
   else ret tt);;
  pinfo col (u "Installing dependencies") 2;;
  ok ← run_cmd col os_popen (u "npm install") 4 true;
  if negb ok then
    perr col (u "Failed to install npm dependencies") 2;;
    sys_exit 4
  else ret tt.

(** [main()], after [Color.check_platform()] has set the colours. *)
Definition main : M unit :=
  let windows := bool_decide (platform_system = u "Windows") in
  win ←
    (if windows && negb user_is_admin then
       perr col (u "This script requires administrator privileges on Windows") 0;;
       perr col (u "Please run again as admin") 0;;
       print [] [LF];;
       pinfo col (u "Tip: Run the following in Powershell if wt.exe is available: ") 0;;
       pwindows_tip;;
       sys_exit 1
     else if windows then ret true
     else ret false);
  pbanner;;
  check_pwd col ROOT_DIR;;
  check_env col ENV_KEYS_iter;;
  check_certs col ROOT_DIR os_popen;;
  check_nodejs;;
  print [] [LF];;
  pinfo col (u "Run `npm run serve` to start the server") 0;;
  if (win : bool) then
    print [] [LF];;
    sp_run (u "pause")
  else ret tt.

End Pipeline.

(** ** Notions for the properties of the whole script *)

(** Every exit of [m] has one of the codes. *)
Definition exits_within {A} (codes : list Z) (m : M A) : Prop :=
  ∀ s c s', m s = (Exit c, s') -> c ∈ codes.

(** A property of the events a computation adds to the log that holds of
    any events without a call of [Popen] and is kept by concatenation. *)
Class LogProp (P : list event -> Prop) : Prop := {
  log_quiet : ∀ evs, cmds_run evs = [] -> P evs;
  log_app : ∀ a b, P a -> P b -> P (a ++ b)
}.

(** [m] only extends the log, by events that satisfy [P], and exits
    with one of the codes only. *)
Definition obeys {A} (codes : list Z) (P : list event -> Prop) (m : M A)
    : Prop :=
  ∀ s,
    (∃ evs, trace (m s).2 = trace s ++ evs ∧ P evs)
    ∧ (∀ c, (m s).1 = Exit c -> c ∈ codes).

(** The calls of [Popen] in a log, with their mode. *)
Fixpoint popen_calls (t : list event) : list (str * bool) :=
  match t with
  | [] => []
  | Run cmd captured :: t' => (cmd, captured) :: popen_calls t'
  | Out _ :: t' => popen_calls t'
  end.

(** No command is handed to [Popen]. *)
Definition no_cmds (evs : list event) : Prop := cmds_run evs = [].

(** Every call of [Popen] captures the output of the child. *)
Definition all_captured (evs : list event) : Prop :=
  Forall (λ call, call.2 = true) (popen_calls evs).

Definition anything (evs : list event) : Prop := True.

Definition manifest_path (o : OS) : path := cwd o ++ [u "package.json"].

(** A checkout that is ready: valid [.env], both certificate files, the
    manifest, and the tools on the search path. *)
Definition os_ready : OS :=
  sample_os
    [(project ++ [u ".env"], File (u "ARGON_THREADS=4" ++ [LF]));
     (project ++ [u "certs"], Dir);
     (key_pem project, File (u "key"));
     (cert_pem project, File (u "cert"));
     (project ++ [u "package.json"], File (u "{}"))]
    [u "mkcert"; u "node"] [].

(** A child whose standard output ends with a progress line. *)
Definition popen_ends_in_progress (cmd : str) (output : bool) (o : OS)
    : Fault + (Process * OS) :=
  inr (child [u "resolving" ++ [LF]; u "Progress 100%" ++ [LF]]
          [u "warning" ++ [LF]] 0, o).

(** ** Running computations *)

Lemma appended_nil s : appended s [] = s.
Proof. destruct s as [o t]. unfold appended. simpl. by rewrite app_nil_r. Qed.

Lemma appended_app s evs1 evs2 :
  appended (appended s evs1) evs2 = appended s (evs1 ++ evs2).
Proof. unfold appended. simpl. by rewrite app_assoc. Qed.

Lemma print_run x e s : print x e s = (Ret tt, appended s [Out (x ++ e)]).
Proof. reflexivity. Qed.

Lemma psec_run col title s :
  psec col title s = (Ret tt, appended s [psec_event col title]).
Proof.
  unfold psec, psec_event. rewrite print_run. by rewrite <- !app_assoc.
Qed.

Lemma psuccess_run col msg indent s :
  psuccess col msg indent s = (Ret tt, appended s [psuccess_event col msg indent]).
Proof. reflexivity. Qed.

Lemma pwarn_run col msg indent s :
  pwarn col msg indent s = (Ret tt, appended s [pwarn_event col msg indent]).
Proof. reflexivity. Qed.

Lemma perr_run col msg indent s :
  perr col msg indent s = (Ret tt, appended s [perr_event col msg indent]).
Proof. reflexivity. Qed.

Lemma pinfo_run col msg indent s :
  pinfo col msg indent s = (Ret tt, appended s [pinfo_event col msg indent]).
Proof. reflexivity. Qed.

Lemma cmds_run_app t1 t2 : cmds_run (t1 ++ t2) = cmds_run t1 ++ cmds_run t2.
Proof.
  induction t1 as [|[x|c b] t1 IH]; simpl; [done | done |].
  by rewrite IH.
Qed.

(** ** The process runner *)

Section Runner.

Variable col : Color.
Variable os_popen : str -> bool -> OS -> Fault + (Process * OS).

Lemma render_line_run indent line flag s :
  render_line col indent (strip line) flag s
  = (Ret (startswith (strip line) progress_prefix),
     appended s (line_events col indent line flag)).
Proof.
  unfold render_line, line_events, rendered.
  destruct (startswith (strip line) progress_prefix) eqn:Hp; simpl.
  - reflexivity.
  - destruct flag; simpl.
    + unfold bind, print, _print, print, emit, ret, appended. simpl.
      by rewrite <- app_assoc.
    + reflexivity.
Qed.

(** Both reading loops return, only extend the log with output, and
    leave the system alone. *)
Lemma stdout_loop_run indent lines st s :
  ∃ st' evs,
    stdout_loop col indent lines st s = (Ret st', appended s evs)
    ∧ cmds_run evs = []
    ∧ (Forall (λ l, truthy (strip l) = false) lines → st' = st)
    ∧ (st.1 = true → st'.1 = true).
Proof.
  revert st s. induction lines as [|l lines IH]; intros st s; simpl.
  - exists st, []. rewrite appended_nil. by repeat split.
  - destruct (truthy (strip l)) eqn:Hl.
    + unfold bind at 1. rewrite render_line_run.
      destruct (IH (true, startswith (strip l) progress_prefix)
                   (appended s (line_events col indent l st.2)))
        as (st' & evs & Hrun & Hcmds & _ & Hmono).
      exists st', (line_events col indent l st.2 ++ evs).
      rewrite Hrun, appended_app. split; [done|]. split; [|split].
      * rewrite cmds_run_app, Hcmds. unfold line_events.
        by destruct (negb _ && _).
      * intros HF. inversion HF; subst. congruence.
      * intros _. by apply Hmono.
    + destruct (IH st s) as (st' & evs & Hrun & Hcmds & Hst & Hmono).
      exists st', evs. repeat split; try done.
      intros HF. inversion HF; subst. auto.
Qed.

Lemma stderr_loop_run indent lines flag s :
  ∃ flag' evs,
    stderr_loop col indent lines flag s = (Ret flag', appended s evs)
    ∧ cmds_run evs = [].
Proof.
  revert flag s. induction lines as [|l lines IH]; intros flag s; simpl.
  - exists flag, []. by rewrite appended_nil.
  - destruct (truthy (strip l)) eqn:Hl.
    + unfold bind at 1. rewrite render_line_run.
      destruct (IH (startswith (strip l) progress_prefix)
                   (appended s (line_events col indent l flag)))
        as (flag' & evs & Hrun & Hcmds).
      exists flag', (line_events col indent l flag ++ evs).
      rewrite Hrun, appended_app. split; [done|].
      rewrite cmds_run_app, Hcmds. unfold line_events.
      by destruct (negb _ && _).
    + apply IH.
Qed.

Lemma Popen_ok cmd output s p o' :
  os_popen cmd output (os s) = inr (p, o') ->
  Popen os_popen cmd output s
  = (Ret p, {| os := o'; trace := trace s ++ [Run cmd output] |}).
Proof.
  intros H. unfold Popen, bind, emit, get_os, set_os, ret. simpl.
  by rewrite H.
Qed.

Lemma Popen_fault cmd output s e :
  os_popen cmd output (os s) = inl e ->
  Popen os_popen cmd output s = (Raise e, appended s [Run cmd output]).
Proof.
  intros H. unfold Popen, bind, emit, get_os, raise. simpl.
  by rewrite H.
Qed.

Lemma stdout_loop_filter indent lines st s :
  stdout_loop col indent lines st s
  = stdout_loop col indent (List.filter nonblank lines) st s.
Proof.
  revert st s. induction lines as [|l lines IH]; intros st s; [done|].
  cbn [stdout_loop List.filter]. unfold nonblank at 1.
  destruct (truthy (strip l)) eqn:Hl; [|apply IH].
  cbn [stdout_loop]. rewrite Hl. unfold bind.
  destruct (render_line col indent (strip l) st.2 s) as [[flag|c|e] s1];
    [apply IH | done | done].
Qed.

Lemma stderr_loop_filter indent lines flag s :
  stderr_loop col indent lines flag s
  = stderr_loop col indent (List.filter nonblank lines) flag s.
Proof.
  revert flag s. induction lines as [|l lines IH]; intros flag s; [done|].
  cbn [stderr_loop List.filter]. unfold nonblank at 1.
  destruct (truthy (strip l)) eqn:Hl; [|apply IH].
  cbn [stderr_loop]. rewrite Hl. unfold bind.
  destruct (render_line col indent (strip l) flag s) as [[flag'|c|e] s1];
    [apply IH | done | done].
Qed.

(** [printed] is set exactly when a line of standard output is not
    blank. *)
Lemma stdout_loop_printed indent lines st s :
  ∃ st' s',
    stdout_loop col indent lines st s = (Ret st', s')
    ∧ st'.1 = st.1 || existsb nonblank lines.
Proof.
  revert st s. induction lines as [|l lines IH]; intros st s.
  - exists st, s. split; [done|]. by rewrite orb_false_r.
  - cbn [stdout_loop existsb]. unfold nonblank at 1.
    destruct (truthy (strip l)) eqn:Hl.
    + unfold bind at 1. rewrite render_line_run.
      destruct (IH (true, startswith (strip l) progress_prefix)
                   (appended s (line_events col indent l st.2)))
        as (st' & s' & Hrun & Hp).
      exists st', s'. split; [done|]. rewrite Hp. cbn [fst orb].
      by rewrite orb_true_r.
    + apply IH.
Qed.

Lemma stream_end_run fault s :
  stream_end fault s
  = match fault with
    | None => (Ret tt, s)
    | Some e => (Raise e, s)
    end.
Proof. by destruct fault. Qed.

(** The [except] clause of [run_cmd]. *)
Lemma except_run cmd indent e s :
  (print (exc_class e ++ u " " ++ exc_str e) [LF];;
   perr col (u "Failed to run command `" ++ cmd ++ u "`: " ++ exc_str e) indent;;
   ret false) s
  = (Ret false, appended s (fault_report col cmd indent e)).
Proof.
  unfold bind. rewrite print_run, perr_run. unfold ret, fault_report.
  rewrite appended_app. cbn [app]. by rewrite <- !app_assoc.
Qed.

(** A captured [run_cmd] in terms of its two reading loops. *)
Lemma run_cmd_by_loops cmd indent s p o' st s2 :
  os_popen cmd true (os s) = inr (p, o') ->
  stdout_loop col indent (p_stdout p) (false, false)
    {| os := o'; trace := trace s ++ [Run cmd true] |} = (Ret st, s2) ->
  run_cmd col os_popen cmd indent true s
  = match p_stdout_fault p with
    | Some e => (Ret false, appended s2 (fault_report col cmd indent e))
    | None =>
        if st.1 then (Ret (bool_decide (returncode p = 0%Z)), s2)
        else
          match p_stderr_fault p with
          | Some e =>
              (Ret false,
               appended (stderr_loop col indent (p_stderr p) st.2 s2).2
                 (fault_report col cmd indent e))
          | None =>
              (Ret (bool_decide (returncode p = 0%Z)),
               (stderr_loop col indent (p_stderr p) st.2 s2).2)
          end
    end.
Proof.
  intros H Hout. unfold run_cmd, try_except_else.
  unfold bind at 1. rewrite (Popen_ok _ _ _ _ _ H).
  unfold bind at 1. rewrite Hout.
  unfold bind at 1. rewrite stream_end_run.
  destruct (p_stdout_fault p) as [e|]; [apply except_run|].
  destruct (st.1); cbn [negb].
  - reflexivity.
  - destruct (stderr_loop_run indent (p_stderr p) st.2 s2)
      as (flag' & evs & Hrun & _).
    unfold bind at 1. unfold bind at 1. rewrite Hrun.
    rewrite stream_end_run. cbn [snd].
    destruct (p_stderr_fault p) as [e|]; [apply except_run|].
    reflexivity.
Qed.

(** [run_cmd] when the child is created: it never exits or raises; it
    answers true when the output was read without a fault and the exit
    status is zero; a fault met while reading is reported at the end of the
    log. *)
Lemma run_cmd_created cmd indent output s p o' :
  os_popen cmd output (os s) = inr (p, o') ->
  ∃ evs,
    run_cmd col os_popen cmd indent output s
    = (Ret (run_answer output p),
       {| os := o'; trace := trace s ++ Run cmd output :: evs |})
    ∧ cmds_run evs = []
    ∧ (∀ e, read_fault output p = Some e ->
            ∃ shown, evs = shown ++ fault_report col cmd indent e).
Proof.
  intros H. destruct output.
  - set (s1 := {| os := o'; trace := trace s ++ [Run cmd true] |}).
    destruct (stdout_loop_run indent (p_stdout p) (false, false) s1)
      as (st' & evs1 & Hrun1 & Hc1 & _ & _).
    destruct (stdout_loop_printed indent (p_stdout p) (false, false) s1)
      as (st2 & s2 & Hrun2 & Hp).
    rewrite Hrun1 in Hrun2. injection Hrun2 as <- _. cbn [fst orb] in Hp.
    rewrite (run_cmd_by_loops cmd indent s p o' st' _ H Hrun1).
    unfold run_answer, read_fault. rewrite <- Hp.
    destruct (p_stdout_fault p) as [e|].
    { exists (evs1 ++ fault_report col cmd indent e). split; [|split].
      - f_equal. unfold appended, s1. cbn [os trace]. f_equal.
        by rewrite <- !app_assoc.
      - by rewrite cmds_run_app, Hc1.
      - intros e' [= <-]. by exists evs1. }
    destruct (st'.1).
    { exists evs1. split; [|split]; [|done|done].
      f_equal. unfold appended, s1. cbn [os trace]. f_equal.
      by rewrite <- !app_assoc. }
    destruct (stderr_loop_run indent (p_stderr p) st'.2 (appended s1 evs1))
      as (flag' & evs2 & Hrun3 & Hc2).
    rewrite Hrun3. cbn [snd].
    destruct (p_stderr_fault p) as [e|].
    + exists (evs1 ++ evs2 ++ fault_report col cmd indent e).
      split; [|split].
      * f_equal. unfold appended, s1. cbn [os trace]. f_equal.
        by rewrite <- !app_assoc.
      * by rewrite !cmds_run_app, Hc1, Hc2.
      * intros e' [= <-]. exists (evs1 ++ evs2). by rewrite <- app_assoc.
    + exists (evs1 ++ evs2). split; [|split]; [| |done].
      * f_equal. unfold appended, s1. cbn [os trace]. f_equal.
        by rewrite <- !app_assoc.
      * by rewrite cmds_run_app, Hc1, Hc2.
  - unfold run_cmd, try_except_else.
    unfold bind at 1. rewrite (Popen_ok _ _ _ _ _ H). unfold ret.
    exists []. by repeat split.
Qed.

(** [run_cmd] when the child cannot be created: the fault is reported
    and the call returns false. *)
Lemma run_cmd_fault cmd indent output s e :
  os_popen cmd output (os s) = inl e ->
  run_cmd col os_popen cmd indent output s
  = (Ret false,
     appended s
       [Run cmd output;
        Out (exc_class e ++ u " " ++ exc_str e ++ [LF]);
        perr_event col
          (u "Failed to run command `" ++ cmd ++ u "`: " ++ exc_str e)
          indent]).
Proof.
  intros H. unfold run_cmd, try_except_else.
  unfold bind at 1. rewrite (Popen_fault _ _ _ _ H).
  unfold bind. rewrite print_run, perr_run. unfold ret.
  rewrite !appended_app. simpl. by rewrite <- !app_assoc.
Qed.

(** [run_cmd] in captured mode never exits or raises; its answer and the
    system it leaves are those of [cmd_result], and the command is the
    only one it hands to [Popen]. *)
Lemma run_cmd_captured cmd indent s :
  ∃ evs,
    run_cmd col os_popen cmd indent true s
    = (Ret (cmd_result os_popen cmd (os s)).1,
       {| os := (cmd_result os_popen cmd (os s)).2;
          trace := trace s ++ evs |})
    ∧ cmds_run evs = [cmd].
Proof.
  unfold cmd_result.
  destruct (os_popen cmd true (os s)) as [e|[p o']] eqn:H.
  - rewrite (run_cmd_fault _ _ _ _ _ H). eexists. split; [reflexivity|].
    reflexivity.
  - destruct (run_cmd_created _ indent _ _ _ _ H) as (evs & Hrun & Hc & _).
    rewrite Hrun. exists (Run cmd true :: evs). split; [done|].
    simpl. by rewrite Hc.
Qed.

Lemma startswith_progress_truthy line :
  startswith line progress_prefix = true -> truthy line = true.
Proof. by destruct line. Qed.




End Runner.

(** The claim C1 fails with the output captured: a child that is created
    and ends with exit status 0, but whose output is not UTF-8, makes
    [run_cmd] return false.  The fault of the decoder is raised inside the
    [try] of [run_cmd] and caught by its [except], like a fault of the
    creation. *)
Lemma garbled_output_is_failure :
  ∃ p,
    popen_garbled (u "npm install") true os_ready = inr (p, os_ready)
    ∧ returncode p = 0%Z
    ∧ run_cmd ansi popen_garbled (u "npm install") 4 true (start os_ready)
      = (Ret false,
         appended (start os_ready)
           [Run (u "npm install") true;
            Out (u "UnicodeDecodeError 'utf-8' codec can't decode byte 0xff in position 0: invalid start byte"
                   ++ [LF]);
            perr_event ansi
              (u "Failed to run command `npm install`: 'utf-8' codec can't decode byte 0xff in position 0: invalid start byte")
              4]).
Proof. eexists. split; [reflexivity|]. split; reflexivity. Qed.

(** C1, amended.  When the child process is created and ends, [run_cmd]
    returns (it neither exits nor raises), and it returns true if and only
    if the exit status of the child is zero and no fault was met while
    reading its output.  With the streams inherited ([output = false])
    nothing is read, so the answer is true exactly when the exit status is
    zero; so it is with the output captured when both streams are read to
    their end.  A fault met while reading is reported by the last two
    lines of the log, after the lines already shown. *)
Theorem run_cmd_true_iff_read_and_exit_zero
    col os_popen cmd indent output s p o' :
  os_popen cmd output (os s) = inr (p, o') ->
  ∃ b s',
    run_cmd col os_popen cmd indent output s = (Ret b, s')
    ∧ (b = true ↔ returncode p = 0%Z ∧ read_fault output p = None)
    ∧ (output = false -> (b = true ↔ returncode p = 0%Z))
    ∧ (p_stdout_fault p = None -> p_stderr_fault p = None ->
       (b = true ↔ returncode p = 0%Z))
    ∧ os s' = o'
    ∧ (∀ e, read_fault output p = Some e ->
            ∃ shown,
              trace s'
              = trace s ++ Run cmd output :: shown
                  ++ fault_report col cmd indent e).
Proof.
  intros H.
  destruct (run_cmd_created col os_popen cmd indent output s p o' H)
    as (evs & Hrun & _ & Hrep).
  assert (Hb : run_answer output p = true
               ↔ returncode p = 0%Z ∧ read_fault output p = None).
  { unfold run_answer. destruct (read_fault output p) as [e|].
    - split; [done | by intros [_ ?]].
    - rewrite bool_decide_eq_true. split; [done | by intros [? _]]. }
  eexists _, _. split; [exact Hrun|].
  split; [exact Hb|]. split; [|split; [|split]].
  - intros ->. rewrite Hb. cbn [read_fault]. split; [by intros [? _] | done].
  - intros Hout Herr. rewrite Hb. unfold read_fault. rewrite Hout, Herr.
    split; [by intros [? _]|]. intros Hrc. split; [done|].
    by destruct output, (existsb nonblank (p_stdout p)).
  - reflexivity.
  - intros e He. destruct (Hrep e He) as [shown ->]. by exists shown.
Qed.

Lemma run_cmd_true_iff_read_and_exit_zero_witness :
  ∃ b s',
    run_cmd ansi popen_brew_fails (u "brew install mkcert") 6 true
      (start os_two_managers) = (Ret b, s')
    ∧ (b = true ↔ returncode (quiet 1) = 0%Z
                  ∧ read_fault true (quiet 1) = None)
    ∧ (true = false -> (b = true ↔ returncode (quiet 1) = 0%Z))
    ∧ (p_stdout_fault (quiet 1) = None -> p_stderr_fault (quiet 1) = None ->
       (b = true ↔ returncode (quiet 1) = 0%Z))
    ∧ os s' = os_two_managers
    ∧ (∀ e, read_fault true (quiet 1) = Some e ->
            ∃ shown,
              trace s'
              = trace (start os_two_managers)
                  ++ Run (u "brew install mkcert") true :: shown
                  ++ fault_report ansi (u "brew install mkcert") 6 e).
Proof.
  apply (run_cmd_true_iff_read_and_exit_zero ansi popen_brew_fails
           (u "brew install mkcert") 6 true (start os_two_managers)
           (quiet 1) os_two_managers).
  reflexivity.
Defined.

(** C2.  When the creation of the child process raises a fault, [run_cmd]
    catches it: it prints the class name and the message of the fault,
    then an error line that quotes the command and the message, and
    returns false; nothing is raised and the process does not exit. *)
Theorem run_cmd_spawn_fault_contained
    col os_popen cmd indent output s e :
  os_popen cmd output (os s) = inl e ->
  ∃ s',
    run_cmd col os_popen cmd indent output s = (Ret false, s')
    ∧ os s' = os s
    ∧ trace s'
      = trace s
        ++ [Run cmd output;
            Out (exc_class e ++ u " " ++ exc_str e ++ [LF]);
            perr_event col
              (u "Failed to run command `" ++ cmd ++ u "`: " ++ exc_str e)
              indent].
Proof.
  intros H. rewrite (run_cmd_fault col os_popen cmd indent output s e H).
  eexists. split; [reflexivity|]. split; reflexivity.
Qed.

Lemma run_cmd_spawn_fault_contained_witness :
  ∃ s',
    run_cmd ansi popen_fault (u "npm install") 4 true (start os_empty_pair)
    = (Ret false, s')
    ∧ os s' = os_empty_pair
    ∧ trace s'
      = [Run (u "npm install") true;
         Out (u "PermissionError [Errno 13] Permission denied" ++ [LF]);
         perr_event ansi
           (u "Failed to run command `npm install`: [Errno 13] Permission denied")
           4].
Proof.
  apply (run_cmd_spawn_fault_contained ansi popen_fault (u "npm install") 4
           true (start os_empty_pair)
           (os_fault "PermissionError" "[Errno 13] Permission denied")).
  reflexivity.
Defined.

Lemma startswith_app s p : startswith (p ++ s) p = true.
Proof.
  induction p as [|a p IH]; [by destruct s|].
  simpl. by rewrite N.eqb_refl, IH.
Qed.

Lemma startswith_split s p :
  startswith s p = true -> ∃ r, s = p ++ r.
Proof.
  revert s. induction p as [|a p IH]; intros s H.
  - by exists s.
  - destruct s as [|b s]; [done|]. simpl in H.
    apply andb_prop in H as [Hab Hs]. apply N.eqb_eq in Hab. subst b.
    destruct (IH s Hs) as [r ->]. by exists r.
Qed.

Lemma lstrip_before a x b :
  isspace x = false -> ∃ a', lstrip (a ++ x :: b) = a' ++ x :: b.
Proof.
  intros Hx. induction a as [|c a IH]; simpl.
  - rewrite Hx. by exists [].
  - destruct (isspace c).
    + exact IH.
    + by exists (c :: a).
Qed.

(** A line that starts with the progress prefix still does after
    [strip()], so the runner renders it as a progress line. *)
Lemma progress_prefix_survives_strip line :
  startswith line progress_prefix = true ->
  startswith (strip line) progress_prefix = true.
Proof.
  intros H. destruct (startswith_split _ _ H) as [r ->].
  unfold strip, rstrip.
  assert (Hl : lstrip (progress_prefix ++ r) = progress_prefix ++ r)
    by reflexivity.
  assert (Hrev : rev progress_prefix = 115%N :: rev (u "Progres"))
    by reflexivity.
  rewrite Hl, rev_app_distr, Hrev.
  destruct (lstrip_before (rev r) 115%N (rev (u "Progres")) eq_refl)
    as [a' Ha].
  unfold str, char in *.
  rewrite Ha, rev_app_distr, <- Hrev, rev_involutive.
  apply startswith_app.
Qed.



(** ** The directory check *)

Lemma getcwd_run s :
  fs (os s) !! cwd (os s) = Some Dir -> getcwd s = (Ret (cwd (os s)), s).
Proof. intros H. unfold getcwd, bind, get_os. by rewrite H. Qed.

Lemma getcwd_removed s :
  fs (os s) !! cwd (os s) ≠ Some Dir -> getcwd s = (Raise cwd_removed, s).
Proof.
  intros H. unfold getcwd, bind, get_os.
  by destruct (fs (os s) !! cwd (os s)) as [[c|]|].
Qed.

Lemma chdir_run p s :
  fs (os s) !! p = Some Dir ->
  chdir p s = (Ret tt, {| os := with_cwd (os s) p; trace := trace s |}).
Proof. intros H. unfold chdir, bind, get_os. by rewrite H. Qed.

(** From a working directory that has been removed, [check_pwd] raises
    after its header: [Path.cwd()] is not guarded. *)
Lemma check_pwd_removed col ROOT_DIR s :
  fs (os s) !! cwd (os s) ≠ Some Dir ->
  check_pwd col ROOT_DIR s
  = (Raise cwd_removed, appended s [psec_event col (u "Directory")]).
Proof.
  intros H. unfold check_pwd.
  unfold bind at 1. rewrite psec_run.
  unfold bind at 1. by rewrite getcwd_removed.
Qed.

(** The claim C9 fails: started from a working directory that has been
    removed, [check_pwd] ends with an unhandled [FileNotFoundError], with
    the project root in place. *)
Lemma removed_cwd_is_not_handled :
  fs os_removed_cwd !! cwd os_removed_cwd = None
  ∧ fs os_removed_cwd !! project = Some Dir
  ∧ check_pwd ansi project (start os_removed_cwd)
    = (Raise (os_fault "FileNotFoundError"
                "[Errno 2] No such file or directory"),
       appended (start os_removed_cwd) [psec_event ansi (u "Directory")]).
Proof. split; [|split]; vm_compute; reflexivity. Qed.

(** C9, amended.  From a working directory that exists, and with the
    project root in place when the two differ, [check_pwd] returns
    normally.  Afterwards the working directory is the project root; when
    it already was, the system is unchanged and only the three status
    lines are written; otherwise the warning and the change are announced
    and the directory is changed.  Nothing else of the system changes. *)
Theorem check_pwd_succeeds_from_existing_dir col ROOT_DIR s :
  fs (os s) !! cwd (os s) = Some Dir ->
  (cwd (os s) ≠ ROOT_DIR -> fs (os s) !! ROOT_DIR = Some Dir) ->
  ∃ evs,
    check_pwd col ROOT_DIR s
    = (Ret tt, {| os := with_cwd (os s) ROOT_DIR; trace := trace s ++ evs |})
    ∧ (cwd (os s) = ROOT_DIR ->
       with_cwd (os s) ROOT_DIR = os s
       ∧ evs = [psec_event col (u "Directory");
                pinfo_event col
                  (u "Current dir: `" ++ path_str (cwd (os s)) ++ u "`") 2;
                psuccess_event col (u "Current dir is valid") 2])
    ∧ (cwd (os s) ≠ ROOT_DIR ->
       evs = [psec_event col (u "Directory");
              pinfo_event col
                (u "Current dir: `" ++ path_str (cwd (os s)) ++ u "`") 2;
              pwarn_event col (u "Current dir is not the root directory") 2;
              pinfo_event col
                (u "Changing root dir: `" ++ path_str ROOT_DIR ++ u "`") 2;
              psuccess_event col (u "Current dir is valid") 2]).
Proof.
  intros Hcwd Hroot. unfold check_pwd.
  unfold bind at 1. rewrite psec_run.
  unfold bind at 1. rewrite getcwd_run by exact Hcwd. cbn [os appended].
  unfold bind at 1. rewrite pinfo_run.
  destruct (decide (cwd (os s) = ROOT_DIR)) as [Heq|Hne].
  - subst ROOT_DIR.
    rewrite bool_decide_eq_false_2 by (intros Hc; by apply Hc).
    unfold bind at 1, ret. rewrite psuccess_run.
    exists [psec_event col (u "Directory");
            pinfo_event col
              (u "Current dir: `" ++ path_str (cwd (os s)) ++ u "`") 2;
            psuccess_event col (u "Current dir is valid") 2].
    assert (Hid : with_cwd (os s) (cwd (os s)) = os s)
      by (by destruct s as [[c f b i] t]).
    split; [|split].
    + rewrite Hid, !appended_app. reflexivity.
    + intros _. by split.
    + intros Hc. by destruct Hc.
  - rewrite bool_decide_eq_true_2 by (intros Hc; by apply Hne).
    unfold bind at 1. unfold bind at 1. rewrite pwarn_run.
    unfold bind at 1. rewrite pinfo_run.
    rewrite chdir_run by (cbn [os appended]; by apply Hroot).
    rewrite psuccess_run.
    eexists. split; [|split].
    + unfold appended, with_cwd. simpl. f_equal. f_equal.
      rewrite <- !app_assoc. reflexivity.
    + intros Hc. by destruct Hne.
    + intros _. reflexivity.
Qed.

Lemma check_pwd_succeeds_from_existing_dir_witness :
  ∃ evs,
    check_pwd ansi project (start (os_from_home []))
    = (Ret tt,
       {| os := with_cwd (os (start (os_from_home []))) project;
          trace := trace (start (os_from_home [])) ++ evs |})
    ∧ (cwd (os (start (os_from_home []))) = project ->
       with_cwd (os (start (os_from_home []))) project
       = os (start (os_from_home []))
       ∧ evs = [psec_event ansi (u "Directory");
                pinfo_event ansi
                  (u "Current dir: `"
                     ++ path_str (cwd (os (start (os_from_home []))))
                     ++ u "`") 2;
                psuccess_event ansi (u "Current dir is valid") 2])
    ∧ (cwd (os (start (os_from_home []))) ≠ project ->
       evs = [psec_event ansi (u "Directory");
              pinfo_event ansi
                (u "Current dir: `"
                   ++ path_str (cwd (os (start (os_from_home []))))
                   ++ u "`") 2;
              pwarn_event ansi (u "Current dir is not the root directory") 2;
              pinfo_event ansi
                (u "Changing root dir: `" ++ path_str project ++ u "`") 2;
              psuccess_event ansi (u "Current dir is valid") 2]).
Proof.
  apply (check_pwd_succeeds_from_existing_dir ansi project
           (start (os_from_home []))).
  - vm_compute. reflexivity.
  - intros _. vm_compute. reflexivity.
Defined.

(** ** The configuration check *)

Lemma has_char_cons c x s :
  has_char c (x :: s) = (x =? c)%N || has_char c s.
Proof. unfold has_char. simpl. by rewrite N.eqb_sym. Qed.

Lemma split1_sep line :
  has_char EQUALS line = true ->
  split1 EQUALS line = [before_sep line; after_sep line].
Proof.
  induction line as [|c rest IH]; [done|].
  rewrite has_char_cons. simpl.
  destruct (c =? EQUALS)%N; [done|].
  simpl. intros H. by rewrite (IH H).
Qed.

Lemma malformed_skipped line :
  is_comment line || is_blank line = true -> malformed line = false.
Proof.
  unfold malformed. destruct (is_comment line), (is_blank line); done.
Qed.

Lemma diagnostic_no_sep iter line :
  has_char EQUALS line = false ->
  env_diagnostic iter line = u "Invalid line in `.env`: " ++ strip line.
Proof. intros H. unfold env_diagnostic. by rewrite H. Qed.

Lemma diagnostic_unknown_key iter line :
  has_char EQUALS line = true ->
  recognized (strip (before_sep line)) = false ->
  env_diagnostic iter line
  = u "Unknown key in `.env`: " ++ before_sep line ++ u " (expected one of "
      ++ join (u ", ") iter ++ u ")".
Proof. intros H1 H2. unfold env_diagnostic. by rewrite H1, H2. Qed.

Lemma diagnostic_empty_value iter line :
  has_char EQUALS line = true ->
  recognized (strip (before_sep line)) = true ->
  env_diagnostic iter line = u "Empty value for key `.env`: " ++ before_sep line.
Proof. intros H1 H2. unfold env_diagnostic. by rewrite H1, H2. Qed.

Section Env.

Variable col : Color.
Variable ENV_KEYS_iter : list str.

(** The loop reports the malformed lines, each once and in the order of
    the file, and sets [err] as soon as there is one. *)
Lemma env_loop_run lines err s :
  env_loop col ENV_KEYS_iter lines err s
  = (Ret (err || existsb malformed lines),
     appended s (map (report col ENV_KEYS_iter) (List.filter malformed lines))).
Proof.
  revert err s. induction lines as [|line lines IH]; intros err s.
  - simpl. rewrite orb_false_r, appended_nil. reflexivity.
  - cbn [env_loop existsb List.filter].
    fold (is_comment line).
    change (negb (truthy (strip line))) with (is_blank line).
    destruct (is_comment line || is_blank line) eqn:Hskip.
    { rewrite (malformed_skipped _ Hskip). simpl. apply IH. }
    apply orb_false_elim in Hskip as [Hc Hb].
    unfold malformed at 1 3. rewrite Hc, Hb.
    destruct (has_char EQUALS line) eqn:Hsep; cbn [negb andb orb].
    2:{ unfold bind at 1. rewrite perr_run, IH.
        cbn [map]. rewrite appended_app, orb_true_r.
        change (report col ENV_KEYS_iter line)
          with (perr_event col (env_diagnostic ENV_KEYS_iter line) 2).
        by rewrite (diagnostic_no_sep _ _ Hsep). }
    rewrite (split1_sep _ Hsep).
    fold (recognized (strip (before_sep line))).
    destruct (recognized (strip (before_sep line))) eqn:Hkey;
      cbn [negb andb orb].
    2:{ unfold bind at 1. rewrite perr_run, IH.
        cbn [map]. rewrite appended_app, orb_true_r.
        change (report col ENV_KEYS_iter line)
          with (perr_event col (env_diagnostic ENV_KEYS_iter line) 2).
        by rewrite (diagnostic_unknown_key _ _ Hsep Hkey). }
    destruct (truthy (strip (after_sep line))) eqn:Hval;
      cbn [negb andb orb].
    2:{ unfold bind at 1. rewrite perr_run, IH.
        cbn [map]. rewrite appended_app, orb_true_r.
        change (report col ENV_KEYS_iter line)
          with (perr_event col (env_diagnostic ENV_KEYS_iter line) 2).
        by rewrite (diagnostic_empty_value _ _ Hsep Hkey). }
    simpl. apply IH.
Qed.

(** [check_env] on a checkout whose [.env] is a file. *)
Lemma check_env_existing s content :
  fs (os s) !! env_path (os s) = Some (File content) ->
  check_env col ENV_KEYS_iter s
  = if existsb malformed (env_lines content)
    then (Exit 2,
          appended s
            (psec_event col (u "Environment")
               :: map (report col ENV_KEYS_iter) (List.filter malformed (env_lines content))))
    else (Ret tt,
          appended s
            (psec_event col (u "Environment")
               :: map (report col ENV_KEYS_iter) (List.filter malformed (env_lines content))
               ++ [psuccess_event col (u "`.env` is valid") 2])).
Proof.
  intros Hfile. unfold check_env.
  unfold bind at 1. rewrite psec_run.
  unfold bind at 1.
  unfold path_exists at 1, bind at 1, get_os, ret. simpl.
  change (cwd (os s) ++ [u ".env"]) with (env_path (os s)).
  rewrite Hfile.
  rewrite bool_decide_eq_true_2 by (by eexists).
  unfold bind at 1.
  unfold open_lines at 1, bind at 1, read_text at 1, bind at 1, get_os, ret.
  simpl. change (cwd (os s) ++ [u ".env"]) with (env_path (os s)).
  rewrite Hfile.
  fold (env_lines content).
  unfold bind at 1. rewrite env_loop_run. simpl orb.
  destruct (existsb malformed (env_lines content)).
  - unfold bind at 1, sys_exit. rewrite appended_app. reflexivity.
  - unfold bind at 1, ret. rewrite psuccess_run, !appended_app.
    reflexivity.
Qed.

End Env.

Lemma existsb_malformed lines :
  existsb malformed lines = true ↔ ∃ l, l ∈ lines ∧ malformed l = true.
Proof.
  rewrite existsb_exists. split; intros (l & Hin & Hl); exists l; split;
    try done; by apply list_elem_of_In.
Qed.

Lemma malformed_well_formed line :
  malformed line
  = negb (is_comment line) && negb (is_blank line) && negb (well_formed line).
Proof.
  unfold malformed, well_formed.
  destruct (is_comment line), (is_blank line), (has_char EQUALS line),
    (recognized _), (truthy _); reflexivity.
Qed.

Lemma filter_malformed_nil lines :
  existsb malformed lines = false -> List.filter malformed lines = [].
Proof.
  induction lines as [|l lines IH]; [done|]. simpl.
  destruct (malformed l); [done|]. exact IH.
Qed.

(** C3.  For an existing [.env]: when some line is malformed, [check_env]
    writes one error line for each malformed line of the file, in the
    order of the file and nothing else after the section header, and exits
    with code 2, whatever the other lines are; when every line that is
    neither a comment nor blank is a recognized key with a non-empty
    value, it writes the success line and returns.  The system is left
    unchanged in both cases. *)
Theorem check_env_reports_every_malformed_line col ENV_KEYS_iter s content :
  fs (os s) !! env_path (os s) = Some (File content) ->
  ((∃ l, l ∈ env_lines content ∧ malformed l = true) ->
   check_env col ENV_KEYS_iter s
   = (Exit 2,
      appended s
        (psec_event col (u "Environment")
           :: map (report col ENV_KEYS_iter)
                (List.filter malformed (env_lines content)))))
  ∧ ((∀ l, l ∈ env_lines content ->
           is_comment l = false -> is_blank l = false ->
           well_formed l = true) ->
     check_env col ENV_KEYS_iter s
     = (Ret tt,
        appended s
          [psec_event col (u "Environment");
           psuccess_event col (u "`.env` is valid") 2])).
Proof.
  intros Hfile. rewrite (check_env_existing col ENV_KEYS_iter s content Hfile).
  split.
  - intros Hbad. apply existsb_malformed in Hbad. by rewrite Hbad.
  - intros Hgood.
    assert (Hnone : existsb malformed (env_lines content) = false).
    { apply not_true_iff_false. intros Hbad.
      apply existsb_malformed in Hbad as (l & Hin & Hl).
      rewrite malformed_well_formed in Hl.
      destruct (is_comment l) eqn:Hc; [done|].
      destruct (is_blank l) eqn:Hb; [done|].
      by rewrite (Hgood l Hin Hc Hb) in Hl. }
    rewrite Hnone, (filter_malformed_nil _ Hnone). reflexivity.
Qed.

Lemma check_env_reports_every_malformed_line_witness :
  ((∃ l, l ∈ env_lines (u "FOO=bar" ++ [LF] ++ u "ARGON_THREADS=4" ++ [LF]
                          ++ u "ARGON_MEM_COST=" ++ [LF])
         ∧ malformed l = true) ->
   check_env ansi [u "ARGON_THREADS"]
     (start (sample_os
               [(project ++ [u ".env"],
                 File (u "FOO=bar" ++ [LF] ++ u "ARGON_THREADS=4" ++ [LF]
                         ++ u "ARGON_MEM_COST=" ++ [LF]))] [] []))
   = (Exit 2,
      appended
        (start (sample_os
                  [(project ++ [u ".env"],
                    File (u "FOO=bar" ++ [LF] ++ u "ARGON_THREADS=4" ++ [LF]
                            ++ u "ARGON_MEM_COST=" ++ [LF]))] [] []))
        (psec_event ansi (u "Environment")
           :: map (report ansi [u "ARGON_THREADS"])
                (List.filter malformed
                   (env_lines (u "FOO=bar" ++ [LF] ++ u "ARGON_THREADS=4"
                                 ++ [LF] ++ u "ARGON_MEM_COST=" ++ [LF]))))))
  ∧ ((∀ l, l ∈ env_lines (u "FOO=bar" ++ [LF] ++ u "ARGON_THREADS=4" ++ [LF]
                            ++ u "ARGON_MEM_COST=" ++ [LF]) ->
           is_comment l = false -> is_blank l = false ->
           well_formed l = true) ->
     check_env ansi [u "ARGON_THREADS"]
       (start (sample_os
                 [(project ++ [u ".env"],
                   File (u "FOO=bar" ++ [LF] ++ u "ARGON_THREADS=4" ++ [LF]
                           ++ u "ARGON_MEM_COST=" ++ [LF]))] [] []))
     = (Ret tt,
        appended
          (start (sample_os
                    [(project ++ [u ".env"],
                      File (u "FOO=bar" ++ [LF] ++ u "ARGON_THREADS=4" ++ [LF]
                              ++ u "ARGON_MEM_COST=" ++ [LF]))] [] []))
          [psec_event ansi (u "Environment");
           psuccess_event ansi (u "`.env` is valid") 2])).
Proof.
  apply (check_env_reports_every_malformed_line ansi [u "ARGON_THREADS"]
           (start (sample_os
                     [(project ++ [u ".env"],
                       File (u "FOO=bar" ++ [LF] ++ u "ARGON_THREADS=4" ++ [LF]
                               ++ u "ARGON_MEM_COST=" ++ [LF]))] [] []))).
  vm_compute. reflexivity.
Defined.

(** The verdict of [check_env] on an existing [.env]. *)
Lemma check_env_verdict col ENV_KEYS_iter s content :
  fs (os s) !! env_path (os s) = Some (File content) ->
  (check_env col ENV_KEYS_iter s).1
  = if existsb malformed (env_lines content) then Exit 2 else Ret tt.
Proof.
  intros Hfile. rewrite (check_env_existing col ENV_KEYS_iter s content Hfile).
  by destruct (existsb malformed (env_lines content)).
Qed.

(** The claim C7 fails: a file that sets [ARGON_THREADS] on two lines is
    accepted. *)
Lemma repeated_key_is_accepted :
  env_lines (u "ARGON_THREADS=1" ++ [LF] ++ u "ARGON_THREADS=2" ++ [LF])
  = [u "ARGON_THREADS=1" ++ [LF]; u "ARGON_THREADS=2" ++ [LF]]
  ∧ strip (before_sep (u "ARGON_THREADS=1" ++ [LF]))
    = strip (before_sep (u "ARGON_THREADS=2" ++ [LF]))
  ∧ check_env ansi [] (start os_repeated_key)
    = (Ret tt,
       appended (start os_repeated_key)
         [psec_event ansi (u "Environment");
          psuccess_event ansi (u "`.env` is valid") 2]).
Proof. split; [|split]; vm_compute; reflexivity. Qed.

Lemma lstrip_keeps c s :
  In c s -> isspace c = false -> In c (lstrip s).
Proof.
  intros Hin Hc. induction s as [|x s IH]; [done|]. simpl.
  destruct (isspace x) eqn:Hx.
  - destruct Hin as [->|Hin]; [congruence|]. by apply IH.
  - exact Hin.
Qed.

Lemma strip_keeps c s :
  In c s -> isspace c = false -> In c (strip s).
Proof.
  intros Hin Hc. unfold strip, rstrip.
  apply in_rev. rewrite rev_involutive.
  apply lstrip_keeps; [|done]. apply in_rev. rewrite rev_involutive.
  by apply lstrip_keeps.
Qed.

Lemma strip_truthy c s :
  In c s -> isspace c = false -> truthy (strip s) = true.
Proof.
  intros Hin Hc. pose proof (strip_keeps c s Hin Hc) as H.
  by destruct (strip s).
Qed.

Lemma assignment_parts key value :
  has_char EQUALS key = false ->
  has_char EQUALS (key ++ EQUALS :: value) = true
  ∧ before_sep (key ++ EQUALS :: value) = key
  ∧ after_sep (key ++ EQUALS :: value) = value.
Proof.
  induction key as [|c key IH].
  - intros _. by repeat split.
  - rewrite has_char_cons. rewrite <- app_comm_cons, has_char_cons.
    cbn [before_sep after_sep].
    destruct (c =? EQUALS)%N; [done|]. simpl orb. intros H.
    destruct (IH H) as (H1 & H2 & H3). by rewrite H1, H2, H3.
Qed.

(** A recognized key with a value that is not blank makes a line that
    is well formed. *)
Lemma assignment_well_formed key value c :
  key ∈ ENV_KEYS ->
  c ∈ value ->
  isspace c = false ->
  well_formed (key ++ EQUALS :: value) = true
  ∧ malformed (key ++ EQUALS :: value) = false.
Proof.
  intros Hkey Hc Hsp.
  assert (Hval : truthy (strip value) = true).
  { apply (strip_truthy c); [by apply list_elem_of_In | done]. }
  assert (Hk : has_char EQUALS key = false ∧ recognized (strip key) = true).
  { unfold ENV_KEYS in Hkey.
    apply elem_of_union in Hkey as [Hkey|Hkey];
      [apply elem_of_union in Hkey as [Hkey|Hkey];
        [apply elem_of_union in Hkey as [Hkey|Hkey]|]|];
      apply elem_of_singleton in Hkey; subst key;
      by vm_compute. }
  destruct Hk as [Hsep Hrec].
  destruct (assignment_parts key value Hsep) as (H1 & H2 & H3).
  assert (Hwf : well_formed (key ++ EQUALS :: value) = true).
  { unfold well_formed. by rewrite H1, H2, H3, Hrec, Hval. }
  split; [exact Hwf|].
  rewrite malformed_well_formed, Hwf. by rewrite andb_false_r.
Qed.

(** C7, amended.  [check_env] does not look for repeated keys.  On an
    existing [.env] it exits with code 2 if and only if some line of the
    file is malformed by itself, and returns if and only if none is.  So a
    file all of whose lines give a recognized key a value that is not
    blank passes, however often a key occurs in it; and two files with the
    same lines, whatever their number and order, get the same verdict. *)
Theorem check_env_verdict_ignores_repeats col ENV_KEYS_iter s content :
  fs (os s) !! env_path (os s) = Some (File content) ->
  ((check_env col ENV_KEYS_iter s).1 = Exit 2
   ↔ ∃ l, l ∈ env_lines content ∧ malformed l = true)
  ∧ ((check_env col ENV_KEYS_iter s).1 = Ret tt
     ↔ ∀ l, l ∈ env_lines content -> malformed l = false)
  ∧ ((∀ l, l ∈ env_lines content ->
           ∃ key value c,
             l = key ++ EQUALS :: value
             ∧ key ∈ ENV_KEYS ∧ c ∈ value ∧ isspace c = false) ->
     check_env col ENV_KEYS_iter s
     = (Ret tt,
        appended s
          [psec_event col (u "Environment");
           psuccess_event col (u "`.env` is valid") 2]))
  ∧ (∀ s2 content2,
       fs (os s2) !! env_path (os s2) = Some (File content2) ->
       (∀ l, l ∈ env_lines content ↔ l ∈ env_lines content2) ->
       (check_env col ENV_KEYS_iter s).1 = (check_env col ENV_KEYS_iter s2).1).
Proof.
  intros Hfile.
  assert (Hnone : existsb malformed (env_lines content) = false
                  ↔ ∀ l, l ∈ env_lines content -> malformed l = false).
  { rewrite <- not_true_iff_false, existsb_malformed. split.
    - intros Hno l Hin. apply not_true_iff_false. intros Hl.
      apply Hno. by exists l.
    - intros Hall (l & Hin & Hl). by rewrite (Hall l Hin) in Hl. }
  split; [|split; [|split]].
  - rewrite (check_env_verdict _ _ _ _ Hfile), <- existsb_malformed.
    by destruct (existsb malformed (env_lines content)).
  - rewrite (check_env_verdict _ _ _ _ Hfile), <- Hnone.
    by destruct (existsb malformed (env_lines content)).
  - intros Hall.
    assert (Hok : existsb malformed (env_lines content) = false).
    { apply Hnone. intros l Hin.
      destruct (Hall l Hin) as (key & value & c & -> & Hkey & Hc & Hsp).
      by apply (assignment_well_formed key value c). }
    rewrite (check_env_existing col ENV_KEYS_iter s content Hfile).
    by rewrite Hok, (filter_malformed_nil _ Hok).
  - intros s2 content2 Hfile2 Hsame.
    rewrite (check_env_verdict _ _ _ _ Hfile),
      (check_env_verdict _ _ _ _ Hfile2).
    assert (Heq : existsb malformed (env_lines content)
                  = existsb malformed (env_lines content2)).
    { apply eq_true_iff_eq. rewrite !existsb_malformed.
      split; intros (l & Hin & Hl); exists l; split; try done;
        by apply Hsame. }
    by rewrite Heq.
Qed.

Lemma check_env_verdict_ignores_repeats_witness :
  ((check_env ansi [] (start os_repeated_key)).1 = Exit 2
   ↔ ∃ l, l ∈ env_lines (u "ARGON_THREADS=1" ++ [LF] ++ u "ARGON_THREADS=2"
                           ++ [LF])
          ∧ malformed l = true)
  ∧ ((check_env ansi [] (start os_repeated_key)).1 = Ret tt
     ↔ ∀ l, l ∈ env_lines (u "ARGON_THREADS=1" ++ [LF] ++ u "ARGON_THREADS=2"
                             ++ [LF]) ->
            malformed l = false)
  ∧ ((∀ l, l ∈ env_lines (u "ARGON_THREADS=1" ++ [LF] ++ u "ARGON_THREADS=2"
                            ++ [LF]) ->
           ∃ key value c,
             l = key ++ EQUALS :: value
             ∧ key ∈ ENV_KEYS ∧ c ∈ value ∧ isspace c = false) ->
     check_env ansi [] (start os_repeated_key)
     = (Ret tt,
        appended (start os_repeated_key)
          [psec_event ansi (u "Environment");
           psuccess_event ansi (u "`.env` is valid") 2]))
  ∧ (∀ s2 content2,
       fs (os s2) !! env_path (os s2) = Some (File content2) ->
       (∀ l, l ∈ env_lines (u "ARGON_THREADS=1" ++ [LF] ++ u "ARGON_THREADS=2"
                              ++ [LF])
             ↔ l ∈ env_lines content2) ->
       (check_env ansi [] (start os_repeated_key)).1
       = (check_env ansi [] s2).1).
Proof.
  apply (check_env_verdict_ignores_repeats ansi [] (start os_repeated_key)
           (u "ARGON_THREADS=1" ++ [LF] ++ u "ARGON_THREADS=2" ++ [LF])).
  vm_compute. reflexivity.
Defined.

(** A line that opens with white space and then a hash sign is neither a
    comment nor blank for [check_env]. *)
Lemma indented_hash_not_skipped ws rest :
  ws ≠ [] ->
  Forall (λ c, isspace c = true) ws ->
  is_comment (ws ++ HASH :: rest) = false
  ∧ is_blank (ws ++ HASH :: rest) = false.
Proof.
  intros Hne Hws. split.
  - destruct ws as [|c ws]; [done|]. inversion Hws as [|? ? Hc _]; subst.
    unfold is_comment. cbn [startswith app].
    destruct (HASH =? c)%N eqn:Heq; [|done].
    apply N.eqb_eq in Heq. subst c. discriminate Hc.
  - unfold is_blank. rewrite (strip_truthy HASH); [done| |done].
    apply in_or_app. right. by left.
Qed.

(** C10.  A line of an existing [.env] that begins with white space
    followed by a hash sign is not skipped as a comment: when it holds no
    separator, [check_env] reports it as an invalid line and exits with
    code 2. *)
Theorem indented_hash_line_is_validated
    col ENV_KEYS_iter s content line ws rest :
  fs (os s) !! env_path (os s) = Some (File content) ->
  line ∈ env_lines content ->
  line = ws ++ HASH :: rest ->
  ws ≠ [] ->
  Forall (λ c, isspace c = true) ws ->
  has_char EQUALS line = false ->
  ∃ evs,
    check_env col ENV_KEYS_iter s = (Exit 2, appended s evs)
    ∧ perr_event col (u "Invalid line in `.env`: " ++ strip line) 2 ∈ evs.
Proof.
  intros Hfile Hin Hline Hne Hws Hsep.
  destruct (indented_hash_not_skipped ws rest Hne Hws) as [Hc Hb].
  rewrite <- Hline in Hc, Hb.
  assert (Hbad : malformed line = true).
  { unfold malformed. by rewrite Hc, Hb, Hsep. }
  rewrite (check_env_existing col ENV_KEYS_iter s content Hfile).
  assert (Hex : existsb malformed (env_lines content) = true).
  { apply existsb_malformed. by exists line. }
  rewrite Hex. eexists. split; [reflexivity|].
  apply elem_of_cons. right.
  rewrite <- (diagnostic_no_sep ENV_KEYS_iter line Hsep).
  change (perr_event col (env_diagnostic ENV_KEYS_iter line) 2)
    with (report col ENV_KEYS_iter line).
  apply list_elem_of_In, in_map, filter_In. split; [|done].
  by apply list_elem_of_In.
Qed.

Lemma indented_hash_line_is_validated_witness :
  ∃ evs,
    check_env ansi []
      (start (sample_os
                [(project ++ [u ".env"],
                  File (u "ARGON_THREADS=4" ++ [LF] ++ u "  # cost" ++ [LF]))]
                [] []))
    = (Exit 2,
       appended
         (start (sample_os
                   [(project ++ [u ".env"],
                     File (u "ARGON_THREADS=4" ++ [LF] ++ u "  # cost"
                             ++ [LF]))] [] []))
         evs)
    ∧ perr_event ansi
        (u "Invalid line in `.env`: " ++ strip (u "  # cost" ++ [LF])) 2
      ∈ evs.
Proof.
  apply (indented_hash_line_is_validated ansi []
           (start (sample_os
                     [(project ++ [u ".env"],
                       File (u "ARGON_THREADS=4" ++ [LF] ++ u "  # cost"
                               ++ [LF]))] [] []))
           (u "ARGON_THREADS=4" ++ [LF] ++ u "  # cost" ++ [LF])
           (u "  # cost" ++ [LF]) (u "  ") (u " cost" ++ [LF])).
  - vm_compute. reflexivity.
  - change (env_lines (u "ARGON_THREADS=4" ++ [LF] ++ u "  # cost" ++ [LF]))
      with [u "ARGON_THREADS=4" ++ [LF]; u "  # cost" ++ [LF]].
    apply elem_of_cons. right. apply elem_of_cons. by left.
  - reflexivity.
  - discriminate.
  - repeat constructor.
  - reflexivity.
Defined.

(** ** Creation of [.env] from the template *)

(** [check_env] on a checkout without [.env] whose template is a file. *)
Lemma check_env_creates col ENV_KEYS_iter s content :
  fs (os s) !! env_path (os s) = None ->
  fs (os s) !! template_path (os s) = Some (File content) ->
  check_env col ENV_KEYS_iter s
  = (Exit 2,
     {| os := with_file (os s) (env_path (os s))
                (slice_from (find LF (universal_newlines content) + 1)
                   (universal_newlines content));
        trace := trace s
                 ++ [psec_event col (u "Environment");
                     pwarn_event col (u "No `.env` file found.") 2;
                     pinfo_event col (u "Created `.env` from `.env.example`") 2;
                     perr_event col
                       (u "Missing required values in `.env` (contact darragh0)")
                       2] |}).
Proof.
  intros Henv Htpl. unfold check_env.
  unfold bind at 1. rewrite psec_run.
  unfold bind at 1.
  unfold path_exists at 1, bind at 1, get_os, ret. simpl.
  change (cwd (os s) ++ [u ".env"]) with (env_path (os s)).
  rewrite Henv.
  rewrite bool_decide_eq_false_2 by (intros [? ?]; done).
  unfold bind at 1. rewrite pwarn_run.
  unfold bind at 1.
  unfold path_exists at 1, bind at 1, ret. simpl.
  change (cwd (os s) ++ [u ".env.example"]) with (template_path (os s)).
  rewrite Htpl.
  rewrite bool_decide_eq_true_2 by (by eexists).
  simpl negb. cbv iota.
  unfold bind at 1. cbv beta iota.
  unfold bind at 1. unfold read_text at 1, bind at 1. simpl.
  change (cwd (os s) ++ [u ".env.example"]) with (template_path (os s)).
  rewrite Htpl. cbv beta iota.
  unfold bind at 1. unfold write_text at 1, bind at 1. simpl.
  change (cwd (os s) ++ [u ".env"]) with (env_path (os s)).
  rewrite Henv. unfold set_os at 1. simpl.
  unfold bind at 1. rewrite pinfo_run.
  unfold bind at 1. rewrite perr_run.
  unfold sys_exit, appended, with_file. simpl.
  rewrite <- !app_assoc. reflexivity.
Qed.

Lemma find_absent c s : has_char c s = false -> find c s = (-1)%Z.
Proof.
  induction s as [|x s IH]; [done|].
  rewrite has_char_cons. simpl.
  destruct (x =? c)%N; [done|]. simpl. intros H. by rewrite (IH H).
Qed.

Lemma find_present c s : has_char c s = true -> (0 <= find c s)%Z.
Proof.
  induction s as [|x s IH]; [done|].
  rewrite has_char_cons. simpl.
  destruct (x =? c)%N; [done|]. simpl. intros H.
  specialize (IH H). destruct (find c s <? 0)%Z eqn:Hlt; lia.
Qed.

Lemma universal_newlines_id s :
  has_char CR s = false -> universal_newlines s = s.
Proof.
  induction s as [|x s IH]; [done|].
  rewrite has_char_cons. cbn [universal_newlines].
  destruct (x =? CR)%N; [done|]. simpl. intros H. by rewrite (IH H).
Qed.

Lemma keep_lines_one line :
  line ≠ [] -> has_char LF line = false -> keep_lines line = [line].
Proof.
  induction line as [|x line IH]; [done|]. intros _.
  rewrite has_char_cons. cbn [keep_lines].
  destruct (x =? LF)%N; [done|]. simpl. intros H.
  destruct line as [|y line]; [done|].
  by rewrite (IH ltac:(done) H).
Qed.

Lemma concat_keep_lines s : concat (keep_lines s) = s.
Proof.
  induction s as [|x s IH]; [done|]. cbn [keep_lines].
  destruct (x =? LF)%N eqn:Hx.
  - apply N.eqb_eq in Hx. subst x. simpl. by rewrite IH.
  - destruct (keep_lines s) as [|l ls] eqn:Hk.
    + simpl in *. by subst s.
    + simpl in *. by rewrite IH.
Qed.

(** Where the template holds a line feed, the slice that [check_env]
    writes is the template without its first line. *)
Lemma slice_drops_first_line s :
  has_char LF s = true ->
  slice_from (find LF s + 1) s = without_first_line s.
Proof.
  unfold without_first_line.
  induction s as [|x s IH]; [done|].
  rewrite has_char_cons. cbn [find keep_lines].
  destruct (x =? LF)%N eqn:Hx.
  - intros _. cbn [tail]. rewrite concat_keep_lines. reflexivity.
  - simpl orb. intros H. specialize (IH H).
    pose proof (find_present LF s H) as Hpos.
    replace (find LF s <? 0)%Z with false by (symmetry; apply Z.ltb_ge; lia).
    destruct (keep_lines s) as [|l ls] eqn:Hk.
    + destruct s; [done|]. cbn [keep_lines] in Hk.
      destruct (_ =? LF)%N; [done|]. by destruct (keep_lines s).
    + cbn [tail] in *. rewrite <- IH.
      unfold slice_from.
      replace (find LF s + 1 + 1 <? 0)%Z with false
        by (symmetry; apply Z.ltb_ge; lia).
      replace (find LF s + 1 <? 0)%Z with false
        by (symmetry; apply Z.ltb_ge; lia).
      replace (Z.to_nat (find LF s + 1 + 1)) with (S (Z.to_nat (find LF s + 1)))
        by lia.
      reflexivity.
Qed.

(** With a template that holds a line feed, [check_env] writes the
    template without its first line and exits with code 2. *)
Lemma check_env_drops_first_line col ENV_KEYS_iter s content :
  fs (os s) !! env_path (os s) = None ->
  fs (os s) !! template_path (os s) = Some (File content) ->
  has_char LF (universal_newlines content) = true ->
  ∃ s',
    check_env col ENV_KEYS_iter s = (Exit 2, s')
    ∧ fs (os s') !! env_path (os s)
      = Some (File (without_first_line (universal_newlines content))).
Proof.
  intros Henv Htpl Hlf.
  rewrite (check_env_creates col ENV_KEYS_iter s content Henv Htpl).
  eexists. split; [reflexivity|]. simpl.
  rewrite lookup_insert_eq. by rewrite (slice_drops_first_line _ Hlf).
Qed.

(** C4, at the input where the code departs from the claim.  With no
    [.env] and a template of one line that has no line end, [check_env]
    exits with code 2, but the file it writes holds the whole template,
    whereas the template without its first line is empty. *)
Theorem check_env_keeps_one_line_template col ENV_KEYS_iter s line :
  fs (os s) !! env_path (os s) = None ->
  fs (os s) !! template_path (os s) = Some (File line) ->
  line ≠ [] ->
  has_char LF line = false ->
  has_char CR line = false ->
  ∃ s',
    check_env col ENV_KEYS_iter s = (Exit 2, s')
    ∧ fs (os s') !! env_path (os s) = Some (File line)
    ∧ without_first_line line = [].
Proof.
  intros Henv Htpl Hne Hlf Hcr.
  rewrite (check_env_creates col ENV_KEYS_iter s line Henv Htpl).
  eexists. split; [reflexivity|]. split.
  - simpl. rewrite lookup_insert_eq.
    rewrite (universal_newlines_id _ Hcr), (find_absent _ _ Hlf).
    reflexivity.
  - unfold without_first_line. by rewrite (keep_lines_one _ Hne Hlf).
Qed.

Lemma check_env_keeps_one_line_template_witness :
  ∃ s',
    check_env ansi [] (start os_one_line_template) = (Exit 2, s')
    ∧ fs (os s') !! env_path (os (start os_one_line_template))
      = Some (File (u "# header"))
    ∧ without_first_line (u "# header") = [].
Proof.
  apply (check_env_keeps_one_line_template ansi []
           (start os_one_line_template) (u "# header")).
  - vm_compute. reflexivity.
  - vm_compute. reflexivity.
  - discriminate.
  - reflexivity.
  - reflexivity.
Defined.

(** ** The certificate check *)

Section Certs.

Variable col : Color.
Variable ROOT_DIR : path.
Variable os_popen : str -> bool -> OS -> Fault + (Process * OS).

Lemma path_exists_abs p s :
  path_exists (Abs p) s = (Ret (bool_decide (is_Some (fs (os s) !! p))), s).
Proof. reflexivity. Qed.

Lemma which_run name s :
  which name s = (Ret (bool_decide (name ∈ on_path (os s))), s).
Proof. reflexivity. Qed.

Lemma key_pem_eq :
  certs_dir ROOT_DIR ++ [u "localhost-key.pem"] = key_pem ROOT_DIR.
Proof. unfold certs_dir, key_pem. by rewrite <- app_assoc. Qed.

Lemma cert_pem_eq :
  certs_dir ROOT_DIR ++ [u "localhost.pem"] = cert_pem ROOT_DIR.
Proof. unfold certs_dir, cert_pem. by rewrite <- app_assoc. Qed.

(** Lines 329-336 with both files present: nothing is run. *)
Lemma check_certs_pair_present s :
  pair_present ROOT_DIR (os s) = true ->
  check_certs_pair col ROOT_DIR os_popen s
  = (Ret tt, appended s [psuccess_event col (u "Certificates are valid") 2]).
Proof.
  unfold pair_present. intros H. apply andb_prop in H as [Hk Hc].
  unfold check_certs_pair.
  unfold bind at 1. rewrite path_exists_abs, key_pem_eq, Hk.
  unfold bind at 1. rewrite path_exists_abs, cert_pem_eq, Hc.
  cbn [negb].
  unfold bind at 1, ret. by rewrite psuccess_run.
Qed.

(** Lines 329-336 with a file missing: the generation command is run,
    and it is the only command. *)
Lemma check_certs_pair_absent s :
  pair_present ROOT_DIR (os s) = false ->
  ∃ evs,
    check_certs_pair col ROOT_DIR os_popen s
    = ((if (cmd_result os_popen mkcert_generate_cmd (os s)).1
        then Ret tt else Exit 3),
       {| os := (cmd_result os_popen mkcert_generate_cmd (os s)).2;
          trace := trace s ++ evs |})
    ∧ cmds_run evs = [mkcert_generate_cmd].
Proof.
  unfold pair_present. intros H.
  destruct (run_cmd_captured col os_popen mkcert_generate_cmd 4
              (appended s [pinfo_event col (u "Generating certificates") 2]))
    as (evs & Hrun & Hcmds).
  simpl os in Hrun.
  assert (Hrest :
    bind
      (bind (pinfo col (u "Generating certificates") 2)
         (λ _,
            bind (run_cmd col os_popen mkcert_generate_cmd 4 true)
              (λ ok,
                 if negb ok
                 then bind (perr col (u "Failed to generate certificates") 2)
                        (λ _, sys_exit 3)
                 else ret tt)))
      (λ _, psuccess col (u "Certificates are valid") 2) s
    = ((if (cmd_result os_popen mkcert_generate_cmd (os s)).1
        then Ret tt else Exit 3),
       {| os := (cmd_result os_popen mkcert_generate_cmd (os s)).2;
          trace :=
            trace s
            ++ [pinfo_event col (u "Generating certificates") 2] ++ evs
            ++ [if (cmd_result os_popen mkcert_generate_cmd (os s)).1
                then psuccess_event col (u "Certificates are valid") 2
                else perr_event col (u "Failed to generate certificates") 2]
       |})).
  { unfold bind at 1. unfold bind at 1. rewrite pinfo_run.
    unfold bind at 1. rewrite Hrun.
    destruct ((cmd_result os_popen mkcert_generate_cmd (os s)).1).
    - cbn [negb]. unfold ret at 1. cbv beta iota.
      rewrite psuccess_run. unfold appended. simpl.
      by rewrite <- !app_assoc.
    - cbn [negb].
      unfold bind at 1. rewrite perr_run. unfold sys_exit.
      unfold appended. simpl. by rewrite <- !app_assoc. }
  exists ([pinfo_event col (u "Generating certificates") 2] ++ evs
          ++ [if (cmd_result os_popen mkcert_generate_cmd (os s)).1
              then psuccess_event col (u "Certificates are valid") 2
              else perr_event col (u "Failed to generate certificates") 2]).
  split.
  - unfold check_certs_pair.
    unfold bind at 1. rewrite path_exists_abs, key_pem_eq.
    destruct (bool_decide (is_Some (fs (os s) !! key_pem ROOT_DIR))).
    + unfold bind at 1. rewrite path_exists_abs, cert_pem_eq.
      simpl in H. rewrite H. cbn [negb]. exact Hrest.
    + unfold bind at 1. unfold ret at 1. cbn [negb]. exact Hrest.
  - rewrite !cmds_run_app, Hcmds.
    by destruct ((cmd_result os_popen mkcert_generate_cmd (os s)).1).
Qed.

(** [check_certs] is its first three parts followed by the look at the
    pair. *)
Lemma check_certs_split s :
  check_certs col ROOT_DIR os_popen s
  = match check_certs_before_pair col ROOT_DIR os_popen s with
    | (Ret _, s1) => check_certs_pair col ROOT_DIR os_popen s1
    | (Exit c, s1) => (Exit c, s1)
    | (Raise e, s1) => (Raise e, s1)
    end.
Proof.
  unfold check_certs, check_certs_before_pair, bind.
  destruct (check_certs_dir col ROOT_DIR s) as [[[]|c|e] s1];
    try reflexivity.
  all: destruct (check_certs_tool col os_popen s1) as [[[]|c|e] s2];
    try reflexivity.
  all: destruct (check_certs_ca col os_popen s2) as [[[]|c|e] s3];
    reflexivity.
Qed.

End Certs.

(** The claim C5 fails: with both certificate files present and empty the
    check passes and runs only the installation of the local authority,
    not the generation command. *)
Lemma empty_pair_is_kept :
  fs os_empty_pair !! key_pem project = Some (File [])
  ∧ fs os_empty_pair !! cert_pem project = Some (File [])
  ∧ (check_certs ansi project popen_ok (start os_empty_pair)).1 = Ret tt
  ∧ cmds_run (trace (check_certs ansi project popen_ok (start os_empty_pair)).2)
    = [mkcert_install_cmd].
Proof. repeat split; vm_compute; reflexivity. Qed.

(** C5, amended.  Once [check_certs] has reached the certificate pair
    (the tool is available and the local authority is installed), it hands
    no further command to [Popen] exactly when both certificate files
    exist, whatever their content, and then it passes and leaves the system
    as it is.  When either file is missing it hands over exactly one
    command, the generation command that names both files, and passes if
    and only if that command succeeds; otherwise it exits with code 3. *)
Theorem check_certs_generates_pair_together
    col ROOT_DIR os_popen s s1 :
  check_certs_before_pair col ROOT_DIR os_popen s = (Ret tt, s1) ->
  ∃ r s',
    check_certs col ROOT_DIR os_popen s = (r, s')
    ∧ cmds_run (trace s')
      = cmds_run (trace s1)
        ++ (if pair_present ROOT_DIR (os s1) then []
            else [u "mkcert -key-file certs/localhost-key.pem -cert-file certs/localhost.pem localhost"])
    ∧ (pair_present ROOT_DIR (os s1) = true -> r = Ret tt ∧ os s' = os s1)
    ∧ (pair_present ROOT_DIR (os s1) = false ->
       r = if (cmd_result os_popen mkcert_generate_cmd (os s1)).1
           then Ret tt else Exit 3).
Proof.
  intros Hpre. rewrite check_certs_split, Hpre.
  destruct (pair_present ROOT_DIR (os s1)) eqn:Hpair.
  - rewrite (check_certs_pair_present col ROOT_DIR os_popen s1 Hpair).
    eexists _, _. split; [reflexivity|]. split; [|split].
    + simpl. rewrite cmds_run_app. reflexivity.
    + intros _. by split.
    + intros Hc. discriminate Hc.
  - destruct (check_certs_pair_absent col ROOT_DIR os_popen s1 Hpair)
      as (evs & Hrun & Hcmds).
    rewrite Hrun. eexists _, _. split; [reflexivity|]. split; [|split].
    + simpl. rewrite cmds_run_app, Hcmds. reflexivity.
    + intros Hc. discriminate Hc.
    + intros _. reflexivity.
Qed.

Lemma check_certs_generates_pair_together_witness :
  ∃ r s',
    check_certs ansi project popen_ok
      (start (sample_os [(key_pem project, File (u "key"))] [u "mkcert"] []))
    = (r, s')
    ∧ cmds_run (trace s')
      = cmds_run
          (trace (check_certs_before_pair ansi project popen_ok
                    (start (sample_os [(key_pem project, File (u "key"))]
                              [u "mkcert"] []))).2)
        ++ (if pair_present project
                 (os (check_certs_before_pair ansi project popen_ok
                        (start (sample_os [(key_pem project, File (u "key"))]
                                  [u "mkcert"] []))).2)
            then []
            else [u "mkcert -key-file certs/localhost-key.pem -cert-file certs/localhost.pem localhost"])
    ∧ (pair_present project
         (os (check_certs_before_pair ansi project popen_ok
                (start (sample_os [(key_pem project, File (u "key"))]
                          [u "mkcert"] []))).2) = true ->
       r = Ret tt
       ∧ os s'
         = os (check_certs_before_pair ansi project popen_ok
                 (start (sample_os [(key_pem project, File (u "key"))]
                           [u "mkcert"] []))).2)
    ∧ (pair_present project
         (os (check_certs_before_pair ansi project popen_ok
                (start (sample_os [(key_pem project, File (u "key"))]
                          [u "mkcert"] []))).2) = false ->
       r = if (cmd_result popen_ok mkcert_generate_cmd
                 (os (check_certs_before_pair ansi project popen_ok
                        (start (sample_os [(key_pem project, File (u "key"))]
                                  [u "mkcert"] []))).2)).1
           then Ret tt else Exit 3).
Proof.
  apply (check_certs_generates_pair_together ansi project popen_ok
           (start (sample_os [(key_pem project, File (u "key"))]
                     [u "mkcert"] []))).
  vm_compute. reflexivity.
Defined.

(** ** Installation of the certificate tool *)

Lemma yn_prompt_run prompt indent s ans rest :
  stdin (os s) = ans :: rest ->
  yn_prompt prompt indent s
  = (Ret (bool_decide (strip (lower ans) = u "y")),
     {| os := with_stdin (os s) rest;
        trace := trace s ++ [Out (spaces indent ++ prompt ++ u " (y/n): ")] |}).
Proof.
  intros Hin. unfold yn_prompt, input.
  unfold bind at 1. unfold bind at 1. rewrite print_run.
  unfold bind at 1, get_os. simpl. rewrite Hin.
  unfold bind at 1, set_os, ret. simpl.
  by rewrite app_nil_r.
Qed.

Section Install.

Variable col : Color.
Variable os_popen : str -> bool -> OS -> Fault + (Process * OS).

(** The loop of [install_mkcert] always returns; it fails exactly when
    [all_fail] holds and runs the commands listed by [attempts]. *)
Lemma install_loop_run cmds s :
  ∃ evs o',
    install_loop col os_popen cmds s
    = (Ret (negb (all_fail os_popen cmds (os s))),
       {| os := o'; trace := trace s ++ evs |})
    ∧ cmds_run evs = attempts os_popen cmds (os s).
Proof.
  revert s. induction cmds as [|[pm cmd] rest IH]; intros s.
  - cbn [install_loop all_fail attempts].
    unfold bind at 1. rewrite perr_run.
    unfold bind at 1. rewrite pinfo_run. unfold ret.
    eexists _, _.
    split; [rewrite appended_app; reflexivity | reflexivity].
  - cbn [install_loop all_fail attempts].
    unfold bind at 1. rewrite which_run.
    destruct (bool_decide (pm ∈ on_path (os s))).
    + unfold bind at 1. rewrite pinfo_run.
      destruct (run_cmd_captured col os_popen cmd 6
                  (appended s [pinfo_event col (u "Installing via " ++ pm) 4]))
        as (evs1 & Hrun & Hcmds).
      simpl os in Hrun. simpl trace in Hrun.
      unfold bind at 1. rewrite Hrun.
      destruct ((cmd_result os_popen cmd (os s)).1).
      * unfold bind at 1. rewrite psuccess_run. unfold ret.
        exists ([pinfo_event col (u "Installing via " ++ pm) 4] ++ evs1
                ++ [psuccess_event col (u "mkcert installed successfully") 4]).
        eexists. split.
        -- unfold appended. simpl. by rewrite <- !app_assoc.
        -- rewrite !cmds_run_app, Hcmds. reflexivity.
      * cbv beta iota.
        match goal with
        | |- context [install_loop col os_popen rest ?st] =>
            destruct (IH st) as (evs2 & o' & Hrest & Hcmds2)
        end.
        rewrite Hrest. simpl os in Hcmds2. simpl trace.
        exists ([pinfo_event col (u "Installing via " ++ pm) 4] ++ evs1
                ++ evs2), o'.
        split.
        -- by rewrite <- !app_assoc.
        -- rewrite !cmds_run_app, Hcmds, Hcmds2. reflexivity.
    + apply IH.
Qed.

(** Lines 311-320 when the tool is absent and the user accepts. *)
Lemma check_certs_tool_accepted s ans rest :
  u "mkcert" ∉ on_path (os s) ->
  stdin (os s) = ans :: rest ->
  strip (lower ans) = u "y" ->
  ∃ evs o',
    check_certs_tool col os_popen s
    = ((if all_fail os_popen install_cmds (with_stdin (os s) rest)
        then Exit 3 else Ret tt),
       {| os := o'; trace := trace s ++ evs |})
    ∧ cmds_run evs
      = attempts os_popen install_cmds (with_stdin (os s) rest).
Proof.
  intros Hno Hin Hyes. unfold check_certs_tool.
  unfold bind at 1. rewrite which_run.
  rewrite bool_decide_eq_false_2 by done. cbn [negb].
  unfold bind at 1. rewrite perr_run.
  unfold bind at 1.
  rewrite (yn_prompt_run _ _ _ ans rest) by exact Hin.
  rewrite bool_decide_eq_true_2 by done. cbn [negb].
  unfold bind at 1. unfold ret at 1. cbv beta iota.
  unfold install_mkcert.
  unfold bind at 1. unfold bind at 1. rewrite pinfo_run.
  match goal with
  | |- context [install_loop col os_popen install_cmds ?st] =>
      destruct (install_loop_run install_cmds st)
        as (evs & o' & Hloop & Hcmds)
  end.
  rewrite Hloop. cbn [os appended] in *.
  destruct (all_fail os_popen install_cmds (with_stdin (os s) rest)).
  - cbn [negb]. unfold bind at 1. rewrite perr_run. unfold sys_exit.
    eexists _, o'. split.
    + unfold appended. cbn [os trace]. rewrite <- !app_assoc. reflexivity.
    + rewrite !cmds_run_app, Hcmds.
      cbn [cmds_run perr_event pinfo_event app]. by rewrite app_nil_r.
  - cbn [negb]. unfold ret.
    eexists _, o'. split.
    + unfold appended. cbn [os trace]. rewrite <- !app_assoc. reflexivity.
    + rewrite !cmds_run_app, Hcmds.
      cbn [cmds_run perr_event pinfo_event app]. reflexivity.
Qed.

End Install.

(** The claim C6 fails: with Homebrew and apt on the search path and the
    Homebrew install failing, the apt install is run next, and the check
    goes on instead of exiting with code 3. *)
Lemma later_manager_is_tried :
  (cmd_result popen_brew_fails (u "brew install mkcert")
     (with_stdin os_two_managers [])).1 = false
  ∧ (check_certs ansi project popen_brew_fails (start os_two_managers)).1
    = Ret tt
  ∧ cmds_run
      (trace (check_certs ansi project popen_brew_fails
                (start os_two_managers)).2)
    = [u "brew install mkcert";
       u "sudo apt update && sudo apt install -y mkcert";
       mkcert_install_cmd; mkcert_generate_cmd].
Proof. repeat split; vm_compute; reflexivity. Qed.

(** C6, amended.  When the certificate tool is absent and the user accepts
    the installation, the package managers are probed in the order of the
    list and the install command of every manager found on the search path
    is run in turn until one succeeds: after a failed command the managers
    later in the list are still tried.  The check exits with code 3
    exactly when no manager is found or every command run has failed, and
    [check_certs] as a whole then exits with code 3. *)
Theorem install_mkcert_tries_managers_in_turn
    col ROOT_DIR os_popen s ans rest :
  u "mkcert" ∉ on_path (os s) ->
  stdin (os s) = ans :: rest ->
  strip (lower ans) = u "y" ->
  ∃ s',
    check_certs_tool col os_popen s
    = ((if all_fail os_popen install_cmds (with_stdin (os s) rest)
        then Exit 3 else Ret tt), s')
    ∧ cmds_run (trace s')
      = cmds_run (trace s)
        ++ attempts os_popen install_cmds (with_stdin (os s) rest)
    ∧ (all_fail os_popen install_cmds (with_stdin (os s) rest) = true ->
       ∀ s0,
         check_certs_dir col ROOT_DIR s0 = (Ret tt, s) ->
         (check_certs col ROOT_DIR os_popen s0).1 = Exit 3).
Proof.
  intros Hno Hin Hyes.
  destruct (check_certs_tool_accepted col os_popen s ans rest Hno Hin Hyes)
    as (evs & o' & Hrun & Hcmds).
  eexists. split; [exact Hrun|]. split.
  - cbn [trace]. by rewrite cmds_run_app, Hcmds.
  - intros Hfail s0 Hdir. unfold check_certs.
    unfold bind at 1. rewrite Hdir.
    unfold bind at 1. rewrite Hrun, Hfail. reflexivity.
Qed.

Lemma install_mkcert_tries_managers_in_turn_witness :
  ∃ s',
    check_certs_tool ansi popen_brew_fails (start os_two_managers)
    = ((if all_fail popen_brew_fails install_cmds
             (with_stdin (os (start os_two_managers)) [])
        then Exit 3 else Ret tt), s')
    ∧ cmds_run (trace s')
      = cmds_run (trace (start os_two_managers))
        ++ attempts popen_brew_fails install_cmds
             (with_stdin (os (start os_two_managers)) [])
    ∧ (all_fail popen_brew_fails install_cmds
         (with_stdin (os (start os_two_managers)) []) = true ->
       ∀ s0,
         check_certs_dir ansi project s0 = (Ret tt, start os_two_managers) ->
         (check_certs ansi project popen_brew_fails s0).1 = Exit 3).
Proof.
  apply (install_mkcert_tries_managers_in_turn ansi project popen_brew_fails
           (start os_two_managers) (u "y") []).
  - vm_compute. intros H. discriminate H.
  - reflexivity.
  - reflexivity.
Defined.

(** ** What the computations of the script add to the log *)

Lemma popen_calls_app t1 t2 :
  popen_calls (t1 ++ t2) = popen_calls t1 ++ popen_calls t2.
Proof.
  induction t1 as [|[x|c b] t1 IH]; simpl; [done | done |].
  by rewrite IH.
Qed.

Lemma popen_calls_quiet evs : cmds_run evs = [] -> popen_calls evs = [].
Proof.
  induction evs as [|[x|c b] evs IH]; simpl; [done | exact IH | done].
Qed.

Global Instance no_cmds_log : LogProp no_cmds.
Proof.
  split; unfold no_cmds.
  - done.
  - intros a b Ha Hb. by rewrite cmds_run_app, Ha, Hb.
Qed.

Global Instance all_captured_log : LogProp all_captured.
Proof.
  split; unfold all_captured.
  - intros evs H. rewrite (popen_calls_quiet _ H). constructor.
  - intros a b Ha Hb. rewrite popen_calls_app. by apply Forall_app.
Qed.

Global Instance anything_log : LogProp anything.
Proof. by split. Qed.

Section Obeys.

Context (codes : list Z) (P : list event -> Prop) `{!LogProp P}.

Lemma obeys_ret {A} (a : A) : obeys codes P (ret a).
Proof.
  intros s. split; [|done].
  exists []. split; [by rewrite app_nil_r | by apply log_quiet].
Qed.

Lemma obeys_raise {A} e : obeys codes P (@raise A e).
Proof.
  intros s. split; [|done].
  exists []. split; [by rewrite app_nil_r | by apply log_quiet].
Qed.

Lemma obeys_sys_exit {A} c : c ∈ codes -> obeys codes P (@sys_exit A c).
Proof.
  intros Hc s. split.
  - exists []. split; [by rewrite app_nil_r | by apply log_quiet].
  - simpl. intros c' [= <-]. exact Hc.
Qed.

Lemma obeys_get_os : obeys codes P get_os.
Proof.
  intros s. split; [|done].
  exists []. split; [by rewrite app_nil_r | by apply log_quiet].
Qed.

Lemma obeys_set_os o : obeys codes P (set_os o).
Proof.
  intros s. split; [|done].
  exists []. split; [by rewrite app_nil_r | by apply log_quiet].
Qed.

Lemma obeys_print x e : obeys codes P (print x e).
Proof.
  intros s. split; [|done].
  exists [Out (x ++ e)]. split; [done | by apply log_quiet].
Qed.

Lemma obeys_bind {A B} (m : M A) (k : A -> M B) :
  obeys codes P m -> (∀ a, obeys codes P (k a)) -> obeys codes P (bind m k).
Proof.
  intros Hm Hk s. unfold bind.
  destruct (Hm s) as [(evs1 & Ht1 & HP1) Hc1].
  destruct (m s) as [[a|c|e] s1]; simpl in *.
  - destruct (Hk a s1) as [(evs2 & Ht2 & HP2) Hc2]. split; [|exact Hc2].
    exists (evs1 ++ evs2). split; [|by apply log_app].
    by rewrite Ht2, Ht1, app_assoc.
  - split; [by exists evs1 |]. intros c' [= <-]. by apply Hc1.
  - split; [by exists evs1 | done].
Qed.

End Obeys.

Lemma obeys_weaken {A} codes codes' (P P' : list event -> Prop) (m : M A) :
  codes ⊆ codes' -> (∀ evs, P evs -> P' evs) ->
  obeys codes P m -> obeys codes' P' m.
Proof.
  intros Hsub HP Hm s. destruct (Hm s) as [(evs & Ht & He) Hc]. split.
  - exists evs. split; [done | by apply HP].
  - intros c Hx. apply Hsub. by apply Hc.
Qed.

(** Takes a computation of the script apart along its binds and case
    distinctions, down to the primitives. *)
Ltac obeys_step :=
  first
    [ assumption
    | match goal with |- LogProp _ => typeclasses eauto end
    | apply obeys_ret
    | apply obeys_raise
    | apply obeys_get_os
    | apply obeys_set_os
    | apply obeys_print
    | apply obeys_sys_exit; [..|set_solver]
    | apply obeys_bind; [..|intros ?]
    | match goal with
      | |- obeys _ _ (if ?b then _ else _) => destruct b
      | |- obeys _ _ (match ?x with _ => _ end) => destruct x
      end
    | progress unfold _print, psec, psuccess, pwarn, perr, pinfo, 
        getcwd, chdir, path_exists, read_text, open_lines, write_text,
        mkdir_p, which, input, yn_prompt, pwindows_tip ].

Ltac obeys_tac := repeat obeys_step.

(** A captured [run_cmd] never exits; its one call of [Popen] is
    captured. *)
Lemma obeys_run_cmd col os_popen codes cmd indent :
  obeys codes all_captured (run_cmd col os_popen cmd indent true).
Proof.
  intros s.
  destruct (os_popen cmd true (os s)) as [e|[p o']] eqn:H.
  - rewrite (run_cmd_fault col os_popen cmd indent true s e H).
    split; [|done]. eexists. split; [reflexivity|].
    repeat constructor.
  - destruct (run_cmd_created col os_popen cmd indent true s p o' H)
      as (evs & Hrun & Hq & _).
    rewrite Hrun. split; [|done].
    exists (Run cmd true :: evs). split; [done|].
    unfold all_captured. simpl. rewrite (popen_calls_quiet _ Hq).
    by repeat constructor.
Qed.

Lemma obeys_print_each codes P `{!LogProp P} lines :
  obeys codes P (print_each lines).
Proof. induction lines as [|l lines IH]; cbn [print_each]; obeys_tac. Qed.

Lemma obeys_env_loop col ENV_KEYS_iter codes P `{!LogProp P} lines err :
  obeys codes P (env_loop col ENV_KEYS_iter lines err).
Proof.
  intros s. rewrite env_loop_run. split; [|done].
  eexists. split; [reflexivity|]. apply log_quiet.
  induction (List.filter malformed lines) as [|l ls IH]; [done|exact IH].
Qed.

Lemma obeys_install_loop col os_popen codes cmds :
  obeys codes all_captured (install_loop col os_popen cmds).
Proof.
  induction cmds as [|[pm cmd] rest IH]; cbn [install_loop];
    repeat first [obeys_step | apply obeys_run_cmd].
Qed.

Ltac obeys_script :=
  repeat first
    [ obeys_step
    | apply obeys_run_cmd
    | apply obeys_print_each
    | apply obeys_env_loop
    | apply obeys_install_loop
    | progress unfold install_mkcert ].

Lemma obeys_pbanner codes P `{!LogProp P} banner :
  obeys codes P (pbanner banner).
Proof. unfold pbanner. obeys_script. Qed.

Lemma obeys_check_pwd col ROOT_DIR codes P `{!LogProp P} :
  obeys codes P (check_pwd col ROOT_DIR).
Proof. unfold check_pwd. obeys_script. Qed.

Lemma obeys_check_env col ENV_KEYS_iter P `{!LogProp P} :
  obeys [2%Z] P (check_env col ENV_KEYS_iter).
Proof. unfold check_env. obeys_script. Qed.

Lemma obeys_check_certs col ROOT_DIR os_popen :
  obeys [3%Z] all_captured (check_certs col ROOT_DIR os_popen).
Proof.
  unfold check_certs, check_certs_dir, check_certs_tool, check_certs_ca,
    check_certs_pair.
  obeys_script.
Qed.

Lemma obeys_check_nodejs col os_popen :
  obeys [4%Z] all_captured (check_nodejs col os_popen).
Proof. unfold check_nodejs. obeys_script. Qed.

(** ** The remaining branches of the configuration check *)

Lemma path_exists_run p s :
  path_exists p s
  = (Ret (bool_decide (is_Some (fs (os s) !! locate (os s) p))), s).
Proof. reflexivity. Qed.

Lemma read_text_run p s :
  read_text p s
  = match fs (os s) !! locate (os s) p with
    | Some (File content) => (Ret (universal_newlines content), s)
    | Some Dir => (Raise (is_a_directory p), s)
    | None => (Raise (no_such_file p), s)
    end.
Proof.
  unfold read_text, bind, get_os.
  by destruct (fs (os s) !! locate (os s) p) as [[c|]|].
Qed.

(** Takes one step of a computation whose first action is known. *)
Ltac run_step :=
  unfold bind at 1;
  first
    [ rewrite psec_run | rewrite perr_run | rewrite pinfo_run
    | rewrite pwarn_run | rewrite psuccess_run | rewrite print_run
    | rewrite path_exists_run | rewrite which_run | rewrite read_text_run ];
  cbn [locate os appended].

Section EnvBranches.

Variable col : Color.
Variable ENV_KEYS_iter : list str.

Lemma check_env_dir s :
  fs (os s) !! env_path (os s) = Some Dir ->
  check_env col ENV_KEYS_iter s
  = (Raise (is_a_directory (Rel [u ".env"])),
     appended s [psec_event col (u "Environment")]).
Proof.
  intros Henv. unfold check_env. run_step. run_step.
  change (cwd (os s) ++ [u ".env"]) with (env_path (os s)).
  rewrite Henv, bool_decide_eq_true_2 by (by eexists).
  unfold bind at 1, open_lines. run_step.
  change (cwd (os s) ++ [u ".env"]) with (env_path (os s)).
  by rewrite Henv.
Qed.

Lemma check_env_no_template s :
  fs (os s) !! env_path (os s) = None ->
  fs (os s) !! template_path (os s) = None ->
  check_env col ENV_KEYS_iter s
  = (Exit 2,
     appended s
       [psec_event col (u "Environment");
        pwarn_event col (u "No `.env` file found.") 2;
        perr_event col
          (u "Missing `.env.example` file. Cannot create `.env`") 2]).
Proof.
  intros Henv Htpl. unfold check_env. run_step. run_step.
  change (cwd (os s) ++ [u ".env"]) with (env_path (os s)).
  rewrite Henv, bool_decide_eq_false_2 by (intros [? ?]; done).
  run_step. run_step.
  change (cwd (os s) ++ [u ".env.example"]) with (template_path (os s)).
  rewrite Htpl, bool_decide_eq_false_2 by (intros [? ?]; done).
  cbn [negb]. unfold bind at 1. run_step. unfold sys_exit.
  by rewrite !appended_app.
Qed.

Lemma check_env_template_dir s :
  fs (os s) !! env_path (os s) = None ->
  fs (os s) !! template_path (os s) = Some Dir ->
  check_env col ENV_KEYS_iter s
  = (Raise (is_a_directory (Rel [u ".env.example"])),
     appended s
       [psec_event col (u "Environment");
        pwarn_event col (u "No `.env` file found.") 2]).
Proof.
  intros Henv Htpl. unfold check_env. run_step. run_step.
  change (cwd (os s) ++ [u ".env"]) with (env_path (os s)).
  rewrite Henv, bool_decide_eq_false_2 by (intros [? ?]; done).
  run_step. run_step.
  change (cwd (os s) ++ [u ".env.example"]) with (template_path (os s)).
  rewrite Htpl, bool_decide_eq_true_2 by (by eexists).
  cbn [negb]. unfold bind at 1. unfold ret at 1. cbv beta iota.
  run_step.
  change (cwd (os s) ++ [u ".env.example"]) with (template_path (os s)).
  rewrite Htpl. by rewrite !appended_app.
Qed.

End EnvBranches.

(** X1.  With neither [.env] nor [.env.example], [check_env] exits with
    code 2 after three lines of output and leaves the system as it is: no
    file is written. *)
Theorem check_env_without_template col ENV_KEYS_iter s :
  fs (os s) !! env_path (os s) = None ->
  fs (os s) !! template_path (os s) = None ->
  ∃ s',
    check_env col ENV_KEYS_iter s = (Exit 2, s')
    ∧ os s' = os s
    ∧ trace s'
      = trace s
        ++ [psec_event col (u "Environment");
            pwarn_event col (u "No `.env` file found.") 2;
            perr_event col
              (u "Missing `.env.example` file. Cannot create `.env`") 2].
Proof.
  intros Henv Htpl. rewrite (check_env_no_template col _ s Henv Htpl).
  eexists. split; [reflexivity|]. by split.
Qed.

Lemma check_env_without_template_witness :
  ∃ s',
    check_env ansi [] (start (sample_os [] [] [])) = (Exit 2, s')
    ∧ os s' = os (start (sample_os [] [] []))
    ∧ trace s'
      = trace (start (sample_os [] [] []))
        ++ [psec_event ansi (u "Environment");
            pwarn_event ansi (u "No `.env` file found.") 2;
            perr_event ansi
              (u "Missing `.env.example` file. Cannot create `.env`") 2].
Proof.
  apply (check_env_without_template ansi [] (start (sample_os [] [] []))).
  - reflexivity.
  - reflexivity.
Defined.

(** X2.  With no [.env] and a template that holds a line feed,
    [check_env] writes the template without its first line to [.env],
    leaves every other path (the template included), the working
    directory, the search path and the pending input as they are, and
    exits with code 2. *)
Theorem check_env_creates_from_template col ENV_KEYS_iter s content :
  fs (os s) !! env_path (os s) = None ->
  fs (os s) !! template_path (os s) = Some (File content) ->
  has_char LF (universal_newlines content) = true ->
  ∃ s',
    check_env col ENV_KEYS_iter s = (Exit 2, s')
    ∧ os s'
      = with_file (os s) (env_path (os s))
          (without_first_line (universal_newlines content))
    ∧ (∀ p, p ≠ env_path (os s) -> fs (os s') !! p = fs (os s) !! p).
Proof.
  intros Henv Htpl Hlf.
  rewrite (check_env_creates col ENV_KEYS_iter s content Henv Htpl).
  eexists. split; [reflexivity|]. cbn [os]. split.
  - by rewrite (slice_drops_first_line _ Hlf).
  - intros p Hp. cbn [fs with_file]. by rewrite lookup_insert_ne.
Qed.

Lemma check_env_creates_from_template_witness :
  ∃ s',
    check_env ansi []
      (start (sample_os
                [(project ++ [u ".env.example"],
                  File (u "# header" ++ [CR; LF] ++ u "ARGON_MEM_COST=65536"
                          ++ [CR; LF]))] [] []))
    = (Exit 2, s')
    ∧ os s'
      = with_file
          (sample_os
             [(project ++ [u ".env.example"],
               File (u "# header" ++ [CR; LF] ++ u "ARGON_MEM_COST=65536"
                       ++ [CR; LF]))] [] [])
          (project ++ [u ".env"])
          (without_first_line
             (universal_newlines
                (u "# header" ++ [CR; LF] ++ u "ARGON_MEM_COST=65536"
                   ++ [CR; LF])))
    ∧ (∀ p, p ≠ project ++ [u ".env"] ->
            fs (os s') !! p
            = fs (sample_os
                    [(project ++ [u ".env.example"],
                      File (u "# header" ++ [CR; LF]
                              ++ u "ARGON_MEM_COST=65536" ++ [CR; LF]))]
                    [] []) !! p).
Proof.
  apply (check_env_creates_from_template ansi []
           (start (sample_os
                     [(project ++ [u ".env.example"],
                       File (u "# header" ++ [CR; LF]
                               ++ u "ARGON_MEM_COST=65536" ++ [CR; LF]))]
                     [] []))
           (u "# header" ++ [CR; LF] ++ u "ARGON_MEM_COST=65536" ++ [CR; LF])).
  - reflexivity.
  - vm_compute. reflexivity.
  - reflexivity.
Defined.

(** X3.  [check_env] returns normally only when [.env] is a file none of
    whose lines is malformed, and then it leaves the system as it is; in
    particular a run that creates [.env] never passes. *)
Theorem check_env_passes_only_on_valid_file col ENV_KEYS_iter s s' :
  check_env col ENV_KEYS_iter s = (Ret tt, s') ->
  ∃ content,
    fs (os s) !! env_path (os s) = Some (File content)
    ∧ (∀ l, l ∈ env_lines content -> malformed l = false)
    ∧ os s' = os s.
Proof.
  intros Hrun.
  destruct (fs (os s) !! env_path (os s)) as [[content|]|] eqn:Henv.
  - exists content. split; [done|].
    rewrite (check_env_existing col ENV_KEYS_iter s content Henv) in Hrun.
    destruct (existsb malformed (env_lines content)) eqn:Hbad; [done|].
    split.
    + intros l Hl. apply not_true_iff_false. intros Hm.
      apply not_true_iff_false in Hbad. apply Hbad, existsb_malformed.
      by exists l.
    + by injection Hrun as <-.
  - by rewrite (check_env_dir col _ s Henv) in Hrun.
  - destruct (fs (os s) !! template_path (os s)) as [[content|]|] eqn:Htpl.
    + by rewrite (check_env_creates col _ s content Henv Htpl) in Hrun.
    + by rewrite (check_env_template_dir col _ s Henv Htpl) in Hrun.
    + by rewrite (check_env_no_template col _ s Henv Htpl) in Hrun.
Qed.

Lemma check_env_passes_only_on_valid_file_witness :
  ∃ content,
    fs os_ready !! env_path os_ready = Some (File content)
    ∧ (∀ l, l ∈ env_lines content -> malformed l = false)
    ∧ os (appended (start os_ready)
            [psec_event ansi (u "Environment");
             psuccess_event ansi (u "`.env` is valid") 2])
      = os (start os_ready).
Proof.
  apply (check_env_passes_only_on_valid_file ansi [] (start os_ready)
           (appended (start os_ready)
              [psec_event ansi (u "Environment");
               psuccess_event ansi (u "`.env` is valid") 2])).
  vm_compute. reflexivity.
Defined.

(** X4.  Whatever the checkout, [check_env] hands no command to [Popen],
    exits with no code other than 2, and changes nothing of the system
    except, possibly, the content of [.env]. *)
Theorem check_env_touches_only_env_file col ENV_KEYS_iter s :
  cmds_run (trace (check_env col ENV_KEYS_iter s).2) = cmds_run (trace s)
  ∧ (∀ c, (check_env col ENV_KEYS_iter s).1 = Exit c -> c = 2%Z)
  ∧ (os (check_env col ENV_KEYS_iter s).2 = os s
     ∨ ∃ content,
         os (check_env col ENV_KEYS_iter s).2
         = with_file (os s) (env_path (os s)) content).
Proof.
  destruct (obeys_check_env col ENV_KEYS_iter no_cmds s)
    as [(evs & Ht & Hq) Hc].
  split; [|split].
  - rewrite Ht, cmds_run_app, Hq. by rewrite app_nil_r.
  - intros c Hx. specialize (Hc c Hx). by apply list_elem_of_singleton in Hc.
  - destruct (fs (os s) !! env_path (os s)) as [[content|]|] eqn:Henv.
    + left. rewrite (check_env_existing col _ s content Henv).
      by destruct (existsb malformed (env_lines content)).
    + left. by rewrite (check_env_dir col _ s Henv).
    + destruct (fs (os s) !! template_path (os s)) as [[content|]|] eqn:Htpl.
      * right. rewrite (check_env_creates col _ s content Henv Htpl).
        by eexists.
      * left. by rewrite (check_env_template_dir col _ s Henv Htpl).
      * left. by rewrite (check_env_no_template col _ s Henv Htpl).
Qed.

(** ** The dependency check *)

Lemma check_nodejs_missing col os_popen s :
  fs (os s) !! manifest_path (os s) = None ∨ u "node" ∉ on_path (os s) ->
  ∃ evs,
    check_nodejs col os_popen s = (Exit 4, appended s evs)
    ∧ cmds_run evs = [].
Proof.
  intros Hmiss. unfold check_nodejs. run_step. run_step.
  change (cwd (os s) ++ [u "package.json"]) with (manifest_path (os s)).
  destruct (fs (os s) !! manifest_path (os s)) as [nd|] eqn:Hfile.
  - destruct Hmiss as [Hc|Hnode]; [done|].
    rewrite bool_decide_eq_true_2 by (by eexists). cbn [negb].
    unfold bind at 1. unfold ret at 1. cbv beta iota.
    run_step. rewrite bool_decide_eq_false_2 by done. cbn [negb].
    unfold bind at 1. run_step. run_step. unfold sys_exit.
    rewrite !appended_app. eexists. split; [reflexivity|]. reflexivity.
  - rewrite bool_decide_eq_false_2 by (intros [? ?]; done). cbn [negb].
    unfold bind at 1. run_step. unfold sys_exit.
    rewrite !appended_app. eexists. split; [reflexivity|]. reflexivity.
Qed.

Lemma check_nodejs_present col os_popen s :
  is_Some (fs (os s) !! manifest_path (os s)) ->
  u "node" ∈ on_path (os s) ->
  ∃ evs,
    check_nodejs col os_popen s
    = ((if (cmd_result os_popen (u "npm install") (os s)).1
        then Ret tt else Exit 4),
       {| os := (cmd_result os_popen (u "npm install") (os s)).2;
          trace := trace s ++ evs |})
    ∧ cmds_run evs = [u "npm install"].
Proof.
  intros Hfile Hnode. unfold check_nodejs. run_step. run_step.
  change (cwd (os s) ++ [u "package.json"]) with (manifest_path (os s)).
  rewrite bool_decide_eq_true_2 by done. cbn [negb].
  unfold bind at 1. unfold ret at 1. cbv beta iota.
  run_step. rewrite bool_decide_eq_true_2 by done. cbn [negb].
  unfold bind at 1. unfold ret at 1. cbv beta iota.
  run_step. unfold bind at 1.
  match goal with
  | |- context [run_cmd col os_popen ?cmd ?i true ?st] =>
      destruct (run_cmd_captured col os_popen cmd i st)
        as (evs & Hrun & Hcmds)
  end.
  rewrite Hrun. cbn [os appended trace].
  destruct ((cmd_result os_popen (u "npm install") (os s)).1).
  - cbn [negb]. unfold ret.
    eexists. split.
    + f_equal. f_equal. rewrite <- !app_assoc. reflexivity.
    + rewrite !cmds_run_app, Hcmds. reflexivity.
  - cbn [negb]. unfold bind at 1. rewrite perr_run. unfold sys_exit.
    eexists. split.
    + f_equal. unfold appended. cbn [os trace]. f_equal.
      rewrite <- !app_assoc. reflexivity.
    + rewrite !cmds_run_app, Hcmds. reflexivity.
Qed.

(** X5.  When [package.json] is missing, or present with no [node] on the
    search path, [check_nodejs] exits with code 4 without handing any
    command to [Popen] and leaves the system as it is. *)
Theorem check_nodejs_missing_prerequisite col os_popen s :
  fs (os s) !! manifest_path (os s) = None ∨ u "node" ∉ on_path (os s) ->
  ∃ evs,
    check_nodejs col os_popen s = (Exit 4, appended s evs)
    ∧ cmds_run evs = [].
Proof. apply check_nodejs_missing. Qed.

Lemma check_nodejs_missing_prerequisite_witness :
  ∃ evs,
    check_nodejs ansi popen_ok (start os_two_managers)
    = (Exit 4, appended (start os_two_managers) evs)
    ∧ cmds_run evs = [].
Proof.
  apply (check_nodejs_missing_prerequisite ansi popen_ok
           (start os_two_managers)).
  left. reflexivity.
Defined.



(** ** The prompt and the certificate tool *)

Lemma isspace_letter c :
  (33 <= c)%N -> (c < 133)%N -> isspace c = false.
Proof.
  intros Hlo Hhi. unfold isspace.
  rewrite (proj2 (N.leb_gt c 13)) by lia.
  rewrite (proj2 (N.leb_gt c 32)) by lia.
  rewrite (proj2 (N.eqb_neq c 0x85)) by lia.
  rewrite (proj2 (N.eqb_neq c 0xA0)) by lia.
  rewrite (proj2 (N.eqb_neq c 0x1680)) by lia.
  rewrite (proj2 (N.leb_gt 0x2000 c)) by lia.
  rewrite (proj2 (N.eqb_neq c 0x2028)) by lia.
  rewrite (proj2 (N.eqb_neq c 0x2029)) by lia.
  rewrite (proj2 (N.eqb_neq c 0x202F)) by lia.
  rewrite (proj2 (N.eqb_neq c 0x205F)) by lia.
  rewrite (proj2 (N.eqb_neq c 0x3000)) by lia.
  by rewrite !andb_false_r.
Qed.

Lemma isspace_lower c : isspace (lower_char c) = isspace c.
Proof.
  unfold lower_char.
  destruct ((65 <=? c) && (c <=? 90))%N eqn:H; [|done].
  apply andb_prop in H as [Hlo Hhi].
  apply N.leb_le in Hlo, Hhi.
  rewrite !isspace_letter; [done | lia | lia | lia | lia].
Qed.

Lemma lstrip_lower s : lstrip (lower s) = lower (lstrip s).
Proof.
  induction s as [|c s IH]; [done|]. simpl.
  rewrite isspace_lower. by destruct (isspace c).
Qed.

Lemma rev_lower s : rev (lower s) = lower (rev s).
Proof. unfold lower. by rewrite map_rev. Qed.

Lemma strip_lower s : strip (lower s) = lower (strip s).
Proof.
  unfold strip, rstrip.
  by rewrite lstrip_lower, rev_lower, lstrip_lower, rev_lower.
Qed.

Lemma lower_is_y t : lower t = u "y" ↔ t = u "y" ∨ t = u "Y".
Proof.
  split.
  - destruct t as [|c [|d t]]; try done. unfold lower. simpl.
    intros [= H]. unfold lower_char in H.
    destruct ((65 <=? c) && (c <=? 90))%N.
    + right. f_equal. change (u "Y") with [89%N].
      assert (c = 89%N) by lia. by subst.
    + left. by subst.
  - by intros [-> | ->].
Qed.

(** X7.  [yn_prompt] writes the prompt, consumes one line of input, and
    answers true exactly when that line, with surrounding white space
    removed, is the single letter [y] or [Y]; any other answer, the word
    [yes] included, counts as a refusal. *)
Theorem yn_prompt_accepts_only_y prompt indent s ans rest :
  stdin (os s) = ans :: rest ->
  yn_prompt prompt indent s
  = (Ret (bool_decide (strip ans = u "y" ∨ strip ans = u "Y")),
     {| os := with_stdin (os s) rest;
        trace := trace s ++ [Out (spaces indent ++ prompt ++ u " (y/n): ")] |}).
Proof.
  intros Hin. rewrite (yn_prompt_run prompt indent s ans rest Hin).
  f_equal. f_equal. apply bool_decide_ext.
  rewrite strip_lower. apply lower_is_y.
Qed.

Lemma yn_prompt_accepts_only_y_witness :
  yn_prompt (u "Install mkcert?") 2
    (start (sample_os [] [] [u " yes "; u "Y"]))
  = (Ret (bool_decide (strip (u " yes ") = u "y" ∨ strip (u " yes ") = u "Y")),
     {| os := with_stdin (os (start (sample_os [] [] [u " yes "; u "Y"])))
                [u "Y"];
        trace := trace (start (sample_os [] [] [u " yes "; u "Y"]))
                 ++ [Out (spaces 2 ++ u "Install mkcert?" ++ u " (y/n): ")] |}).
Proof.
  apply (yn_prompt_accepts_only_y (u "Install mkcert?") 2
           (start (sample_os [] [] [u " yes "; u "Y"])) (u " yes ") [u "Y"]).
  reflexivity.
Defined.

(** X8.  When the certificate tool is absent and the user's answer is not
    an acceptance, [check_certs_tool] exits with code 3 without handing
    any command to [Popen]; the only change to the system is the consumed
    line of input. *)
Theorem check_certs_tool_declined col os_popen s ans rest :
  u "mkcert" ∉ on_path (os s) ->
  stdin (os s) = ans :: rest ->
  strip (lower ans) ≠ u "y" ->
  check_certs_tool col os_popen s
  = (Exit 3,
     {| os := with_stdin (os s) rest;
        trace :=
          trace s
          ++ [perr_event col (u "mkcert is not installed") 2;
              Out (spaces 2 ++ u "Install mkcert?" ++ u " (y/n): ");
              perr_event col
                (u "Please install mkcert to continue (https://github.com/FiloSottile/mkcert)")
                0] |}).
Proof.
  intros Hno Hin Hans. unfold check_certs_tool.
  run_step. rewrite bool_decide_eq_false_2 by done. cbn [negb].
  run_step. unfold bind at 1.
  rewrite (yn_prompt_run _ _ _ ans rest) by exact Hin.
  rewrite bool_decide_eq_false_2 by done. cbn [negb].
  unfold bind at 1. run_step. unfold sys_exit, appended. cbn [os trace].
  by rewrite <- !app_assoc.
Qed.

Lemma check_certs_tool_declined_witness :
  check_certs_tool ansi popen_ok
    (start (sample_os [] [u "brew"] [u "yes"]))
  = (Exit 3,
     {| os := with_stdin (os (start (sample_os [] [u "brew"] [u "yes"]))) [];
        trace :=
          trace (start (sample_os [] [u "brew"] [u "yes"]))
          ++ [perr_event ansi (u "mkcert is not installed") 2;
              Out (spaces 2 ++ u "Install mkcert?" ++ u " (y/n): ");
              perr_event ansi
                (u "Please install mkcert to continue (https://github.com/FiloSottile/mkcert)")
                0] |}).
Proof.
  apply (check_certs_tool_declined ansi popen_ok
           (start (sample_os [] [u "brew"] [u "yes"])) (u "yes") []).
  - vm_compute. intros H. discriminate H.
  - reflexivity.
  - vm_compute. intros H. discriminate H.
Defined.

(** X9.  When the certificate tool is absent and the input is at its end,
    the prompt raises [EOFError]; [check_certs_tool] does not catch it, so
    the run ends with that fault and not with an exit code of the
    script. *)
Theorem check_certs_tool_end_of_input col os_popen s :
  u "mkcert" ∉ on_path (os s) ->
  stdin (os s) = [] ->
  check_certs_tool col os_popen s
  = (Raise (os_fault "EOFError" "EOF when reading a line"),
     appended s
       [perr_event col (u "mkcert is not installed") 2;
        Out (spaces 2 ++ u "Install mkcert?" ++ u " (y/n): ")]).
Proof.
  intros Hno Hin. unfold check_certs_tool.
  run_step. rewrite bool_decide_eq_false_2 by done. cbn [negb].
  run_step. unfold bind at 1. unfold yn_prompt at 1. unfold bind at 1.
  unfold input at 1. run_step.
  unfold bind at 1, get_os. cbn [os appended]. rewrite Hin.
  unfold raise. rewrite appended_app. by rewrite app_nil_r.
Qed.

Lemma check_certs_tool_end_of_input_witness :
  check_certs_tool ansi popen_ok (start (sample_os [] [u "brew"] []))
  = (Raise (os_fault "EOFError" "EOF when reading a line"),
     appended (start (sample_os [] [u "brew"] []))
       [perr_event ansi (u "mkcert is not installed") 2;
        Out (spaces 2 ++ u "Install mkcert?" ++ u " (y/n): ")]).
Proof.
  apply (check_certs_tool_end_of_input ansi popen_ok
           (start (sample_os [] [u "brew"] []))).
  - vm_compute. intros H. discriminate H.
  - reflexivity.
Defined.

Lemma install_loop_none_found col os_popen cmds s :
  Forall (λ pc, pc.1 ∉ on_path (os s)) cmds ->
  install_loop col os_popen cmds s
  = (Ret false,
     appended s
       [perr_event col (u "No supported package manager found") 4;
        pinfo_event col
          (u "Please install mkcert manually (https://github.com/FiloSottile/mkcert)")
          4]).
Proof.
  induction 1 as [|[pm cmd] rest Hpm _ IH]; cbn [install_loop].
  - run_step. run_step. unfold ret. by rewrite appended_app.
  - run_step. cbn [fst] in Hpm.
    rewrite bool_decide_eq_false_2 by done. exact IH.
Qed.

(** X10.  When none of the six package managers is on the search path,
    [install_mkcert] returns false after its three lines of output: it
    hands no command to [Popen] and leaves the system as it is. *)
Theorem install_mkcert_without_manager col os_popen s :
  (∀ pm, pm ∈ [u "brew"; u "choco"; u "scoop"; u "apt"; u "dnf"; u "pacman"]
         -> pm ∉ on_path (os s)) ->
  install_mkcert col os_popen s
  = (Ret false,
     appended s
       [pinfo_event col (u "Installing mkcert...") 2;
        perr_event col (u "No supported package manager found") 4;
        pinfo_event col
          (u "Please install mkcert manually (https://github.com/FiloSottile/mkcert)")
          4]).
Proof.
  intros Hnone. unfold install_mkcert. run_step.
  rewrite install_loop_none_found.
  - by rewrite appended_app.
  - cbn [os appended]. unfold install_cmds.
    repeat (constructor; [apply Hnone; set_solver|]). constructor.
Qed.

Lemma install_mkcert_without_manager_witness :
  install_mkcert ansi popen_ok (start os_ready)
  = (Ret false,
     appended (start os_ready)
       [pinfo_event ansi (u "Installing mkcert...") 2;
        perr_event ansi (u "No supported package manager found") 4;
        pinfo_event ansi
          (u "Please install mkcert manually (https://github.com/FiloSottile/mkcert)")
          4]).
Proof.
  apply (install_mkcert_without_manager ansi popen_ok (start os_ready)).
  intros pm Hpm.
  repeat (apply elem_of_cons in Hpm as [->|Hpm];
          [vm_compute; intros H; discriminate H|]).
  by apply elem_of_nil in Hpm.
Defined.

(** X11.  Run from the project root, [check_certs_dir] returns with the
    [certs] entry of the root present; it creates the directory when the
    entry is missing and changes no other path, nor the working directory,
    the search path or the pending input. *)
Theorem check_certs_dir_ensures_directory col ROOT_DIR s :
  cwd (os s) = ROOT_DIR ->
  ∃ s',
    check_certs_dir col ROOT_DIR s = (Ret tt, s')
    ∧ is_Some (fs (os s') !! certs_dir ROOT_DIR)
    ∧ (∀ p, p ≠ certs_dir ROOT_DIR -> fs (os s') !! p = fs (os s) !! p)
    ∧ (is_Some (fs (os s) !! certs_dir ROOT_DIR) -> os s' = os s)
    ∧ cwd (os s') = cwd (os s)
    ∧ on_path (os s') = on_path (os s)
    ∧ stdin (os s') = stdin (os s).
Proof.
  intros Hcwd. unfold check_certs_dir. run_step. run_step.
  destruct (fs (os s) !! certs_dir ROOT_DIR) as [nd|] eqn:Hdir.
  - rewrite bool_decide_eq_true_2 by (by eexists). cbn [negb]. unfold ret.
    eexists. split; [reflexivity|]. cbn [os appended].
    rewrite Hdir. repeat split; by eauto.
  - rewrite bool_decide_eq_false_2 by (intros [? ?]; done). cbn [negb].
    unfold bind at 1. unfold mkdir_p at 1. unfold bind at 1, get_os.
    cbn [os appended locate]. rewrite Hcwd.
    change (ROOT_DIR ++ [u "certs"]) with (certs_dir ROOT_DIR).
    rewrite Hdir. unfold set_os. cbn [os appended trace].
    rewrite pinfo_run.
    eexists. split; [reflexivity|]. cbn [os appended fs cwd on_path stdin].
    split; [|split; [|split]].
    + rewrite lookup_insert_eq. by eexists.
    + intros p Hp. by rewrite lookup_insert_ne.
    + intros [? ?]. done.
    + by repeat split.
Qed.

Lemma check_certs_dir_ensures_directory_witness :
  ∃ s',
    check_certs_dir ansi project (start (sample_os [] [] [])) = (Ret tt, s')
    ∧ is_Some (fs (os s') !! certs_dir project)
    ∧ (∀ p, p ≠ certs_dir project ->
            fs (os s') !! p = fs (os (start (sample_os [] [] []))) !! p)
    ∧ (is_Some (fs (os (start (sample_os [] [] []))) !! certs_dir project) ->
       os s' = os (start (sample_os [] [] [])))
    ∧ cwd (os s') = cwd (os (start (sample_os [] [] [])))
    ∧ on_path (os s') = on_path (os (start (sample_os [] [] [])))
    ∧ stdin (os s') = stdin (os (start (sample_os [] [] []))).
Proof.
  apply (check_certs_dir_ensures_directory ansi project
           (start (sample_os [] [] []))).
  reflexivity.
Defined.

(** ** What the runner shows of the output of a child *)

(** X12.  The blank lines of a child's output do not matter to a captured
    [run_cmd]: two children whose streams agree once blank lines are left
    out and end in the same way, with the same exit status and the same
    effect on the system, give the same log and the same answer. *)
Theorem run_cmd_ignores_blank_lines
    col popen1 popen2 cmd indent s p1 p2 o' :
  popen1 cmd true (os s) = inr (p1, o') ->
  popen2 cmd true (os s) = inr (p2, o') ->
  List.filter nonblank (p_stdout p1) = List.filter nonblank (p_stdout p2) ->
  List.filter nonblank (p_stderr p1) = List.filter nonblank (p_stderr p2) ->
  p_stdout_fault p1 = p_stdout_fault p2 ->
  p_stderr_fault p1 = p_stderr_fault p2 ->
  returncode p1 = returncode p2 ->
  run_cmd col popen1 cmd indent true s = run_cmd col popen2 cmd indent true s.
Proof.
  intros H1 H2 Hout Herr Hoe Hee Hrc.
  destruct (stdout_loop_printed col indent (p_stdout p1) (false, false)
              {| os := o'; trace := trace s ++ [Run cmd true] |})
    as (st & s2 & Hrun1 & _).
  assert (Hrun2 :
    stdout_loop col indent (p_stdout p2) (false, false)
      {| os := o'; trace := trace s ++ [Run cmd true] |} = (Ret st, s2)).
  { by rewrite stdout_loop_filter, <- Hout, <- stdout_loop_filter. }
  rewrite (run_cmd_by_loops col popen1 cmd indent s p1 o' st s2 H1 Hrun1).
  rewrite (run_cmd_by_loops col popen2 cmd indent s p2 o' st s2 H2 Hrun2).
  rewrite Hrc, Hoe, Hee.
  by rewrite (stderr_loop_filter col indent (p_stderr p1)), Herr,
    <- stderr_loop_filter.
Qed.

Lemma run_cmd_ignores_blank_lines_witness :
  run_cmd ansi popen_ends_in_progress (u "npm install") 4 true
    (start os_ready)
  = run_cmd ansi
      (λ cmd output o,
         inr (child [[LF]; u "resolving" ++ [LF]; u "   " ++ [LF];
                     u "Progress 100%" ++ [LF]]
                    [u "warning" ++ [LF]; [SP; LF]] 0, o))
      (u "npm install") 4 true (start os_ready).
Proof.
  apply (run_cmd_ignores_blank_lines ansi popen_ends_in_progress _
           (u "npm install") 4 (start os_ready)
           (child [u "resolving" ++ [LF]; u "Progress 100%" ++ [LF]]
                  [u "warning" ++ [LF]] 0)
           (child [[LF]; u "resolving" ++ [LF]; u "   " ++ [LF];
                   u "Progress 100%" ++ [LF]]
                  [u "warning" ++ [LF]; [SP; LF]] 0)
           os_ready); reflexivity.
Defined.

(** X13.  As soon as standard output holds one line that is not blank, a
    captured [run_cmd] never reads standard error: two children that
    differ only in their standard error, in its lines or in the way it
    ends, give the same log and the same answer. *)
Theorem run_cmd_hides_stderr_after_output
    col popen1 popen2 cmd indent s p1 p2 o' l :
  popen1 cmd true (os s) = inr (p1, o') ->
  popen2 cmd true (os s) = inr (p2, o') ->
  p_stdout p1 = p_stdout p2 ->
  p_stdout_fault p1 = p_stdout_fault p2 ->
  returncode p1 = returncode p2 ->
  l ∈ p_stdout p1 ->
  nonblank l = true ->
  run_cmd col popen1 cmd indent true s = run_cmd col popen2 cmd indent true s.
Proof.
  intros H1 H2 Hout Hoe Hrc Hin Hl.
  destruct (stdout_loop_printed col indent (p_stdout p1) (false, false)
              {| os := o'; trace := trace s ++ [Run cmd true] |})
    as (st & s2 & Hrun1 & Hp).
  assert (Hprinted : st.1 = true).
  { rewrite Hp. cbn [fst orb]. apply existsb_exists. exists l.
    split; [by apply list_elem_of_In | done]. }
  pose proof Hrun1 as Hrun2. rewrite Hout in Hrun2.
  rewrite (run_cmd_by_loops col popen1 cmd indent s p1 o' st s2 H1 Hrun1).
  rewrite (run_cmd_by_loops col popen2 cmd indent s p2 o' st s2 H2 Hrun2).
  by rewrite Hrc, Hoe, Hprinted.
Qed.

Lemma run_cmd_hides_stderr_after_output_witness :
  run_cmd ansi popen_ends_in_progress (u "npm install") 4 true
    (start os_ready)
  = run_cmd ansi
      (λ cmd output o,
         inr ({| p_stdout := [u "resolving" ++ [LF]; u "Progress 100%" ++ [LF]];
                 p_stdout_fault := None;
                 p_stderr := [u "npm ERR! disk full" ++ [LF]];
                 p_stderr_fault := Some not_utf8;
                 returncode := 0 |}, o))
      (u "npm install") 4 true (start os_ready).
Proof.
  apply (run_cmd_hides_stderr_after_output ansi popen_ends_in_progress _
           (u "npm install") 4 (start os_ready)
           (child [u "resolving" ++ [LF]; u "Progress 100%" ++ [LF]]
                  [u "warning" ++ [LF]] 0)
           {| p_stdout := [u "resolving" ++ [LF]; u "Progress 100%" ++ [LF]];
              p_stdout_fault := None;
              p_stderr := [u "npm ERR! disk full" ++ [LF]];
              p_stderr_fault := Some not_utf8;
              returncode := 0 |}
           os_ready (u "resolving" ++ [LF])); try reflexivity.
  apply elem_of_cons. by left.
Defined.

(** X14.  A child that writes nothing but blank lines, on either stream,
    both read to their end, adds nothing to the terminal: after a captured
    [run_cmd] the log holds the call of [Popen] and no output. *)
Theorem run_cmd_silent_child col os_popen cmd indent s p o' :
  os_popen cmd true (os s) = inr (p, o') ->
  Forall (λ l, nonblank l = false) (p_stdout p) ->
  Forall (λ l, nonblank l = false) (p_stderr p) ->
  p_stdout_fault p = None ->
  p_stderr_fault p = None ->
  run_cmd col os_popen cmd indent true s
  = (Ret (bool_decide (returncode p = 0%Z)),
     {| os := o'; trace := trace s ++ [Run cmd true] |}).
Proof.
  intros H Hout Herr Hoe Hee.
  assert (Hnil : ∀ lines,
    Forall (λ l, nonblank l = false) lines -> List.filter nonblank lines = []).
  { induction 1 as [|l lines Hl _ IH]; [done|]. simpl. by rewrite Hl. }
  rewrite (run_cmd_by_loops col os_popen cmd indent s p o' (false, false)
             {| os := o'; trace := trace s ++ [Run cmd true] |} H).
  - rewrite Hoe, Hee. cbn [fst snd].
    by rewrite stderr_loop_filter, (Hnil _ Herr).
  - by rewrite stdout_loop_filter, (Hnil _ Hout).
Qed.

Lemma run_cmd_silent_child_witness :
  run_cmd ansi
    (λ cmd output o, inr (child [[LF]; u "  " ++ [LF]] [] 1, o))
    (u "mkcert -install") 4 true (start os_ready)
  = (Ret (bool_decide (1 = 0)%Z),
     {| os := os_ready;
        trace := trace (start os_ready) ++ [Run (u "mkcert -install") true] |}).
Proof.
  apply (run_cmd_silent_child ansi _ (u "mkcert -install") 4 (start os_ready)
           (child [[LF]; u "  " ++ [LF]] [] 1) os_ready).
  - reflexivity.
  - repeat constructor.
  - constructor.
  - reflexivity.
  - reflexivity.
Defined.

(** X15.  When the last line of standard output that is not blank is a
    progress line and the stream is read to its end, the last chunk a
    captured [run_cmd] writes is that line ended by a carriage return: no
    line break follows, so whatever is printed next starts on the progress
    line. *)
Theorem run_cmd_ends_on_progress_line
    col os_popen cmd indent s p o' pre l blanks :
  os_popen cmd true (os s) = inr (p, o') ->
  p_stdout p = pre ++ l :: blanks ->
  p_stdout_fault p = None ->
  startswith (strip l) progress_prefix = true ->
  Forall (λ b, nonblank b = false) blanks ->
  ∃ before,
    trace (run_cmd col os_popen cmd indent true s).2
    = before ++ [Out (rendered col indent l ++ [CR])].
Proof.
  intros H Hout Hoe Hl Hblank.
  assert (Hloop : ∀ pre st s0,
    ∃ st' evs,
      stdout_loop col indent (pre ++ l :: blanks) st s0
      = (Ret st',
         appended s0 (evs ++ [Out (rendered col indent l ++ [CR])]))
      ∧ st'.1 = true).
  { clear pre Hout. intros pre.
    induction pre as [|a pre IH]; intros st s0.
    - cbn [app stdout_loop].
      rewrite (startswith_progress_truthy _ Hl).
      unfold bind at 1. rewrite render_line_run.
      rewrite stdout_loop_filter.
      assert (Hnil : List.filter nonblank blanks = []).
      { clear -Hblank. induction Hblank as [|b bs Hb _ IH]; [done|].
        simpl. by rewrite Hb. }
      rewrite Hnil. cbn [stdout_loop]. unfold ret.
      exists (true, startswith (strip l) progress_prefix), [].
      split; [|done]. unfold line_events. rewrite Hl. reflexivity.
    - cbn [app stdout_loop]. destruct (truthy (strip a)).
      + unfold bind at 1. rewrite render_line_run.
        destruct (IH (true, startswith (strip a) progress_prefix)
                     (appended s0 (line_events col indent a st.2)))
          as (st' & evs & Hrun & Hp).
        exists st', (line_events col indent a st.2 ++ evs).
        rewrite Hrun, appended_app. split; [|done].
        by rewrite <- app_assoc.
      + apply IH. }
  destruct (Hloop pre (false, false)
              {| os := o'; trace := trace s ++ [Run cmd true] |})
    as (st' & evs & Hrun & Hp).
  rewrite <- Hout in Hrun.
  rewrite (run_cmd_by_loops col os_popen cmd indent s p o' st' _ H Hrun).
  rewrite Hoe, Hp. cbn [snd appended trace].
  exists ((trace s ++ [Run cmd true]) ++ evs). by rewrite <- !app_assoc.
Qed.

Lemma run_cmd_ends_on_progress_line_witness :
  ∃ before,
    trace (run_cmd ansi popen_ends_in_progress (u "npm install") 4 true
             (start os_ready)).2
    = before ++ [Out (rendered ansi 4 (u "Progress 100%" ++ [LF]) ++ [CR])].
Proof.
  apply (run_cmd_ends_on_progress_line ansi popen_ends_in_progress
           (u "npm install") 4 (start os_ready)
           (child [u "resolving" ++ [LF]; u "Progress 100%" ++ [LF]]
                  [u "warning" ++ [LF]] 0)
           os_ready [u "resolving" ++ [LF]] (u "Progress 100%" ++ [LF]) []).
  - reflexivity.
  - reflexivity.
  - reflexivity.
  - reflexivity.
  - constructor.
Defined.

(** ** Exit codes and commands of the stages *)

Lemma obeys_exits {A} codes P (m : M A) :
  obeys codes P m -> exits_within codes m.
Proof.
  intros Hm s c s' Hrun. destruct (Hm s) as [_ Hc].
  apply Hc. by rewrite Hrun.
Qed.

(** X16.  Each stage has its own exit code: [check_pwd] never exits,
    [check_env] exits with code 2 only, [check_certs] with code 3 only
    and [check_nodejs] with code 4 only. *)
Theorem stage_exit_codes col ROOT_DIR ENV_KEYS_iter os_popen :
  exits_within [] (check_pwd col ROOT_DIR)
  ∧ exits_within [2%Z] (check_env col ENV_KEYS_iter)
  ∧ exits_within [3%Z] (check_certs col ROOT_DIR os_popen)
  ∧ exits_within [4%Z] (check_nodejs col os_popen).
Proof.
  split; [|split; [|split]].
  - apply (obeys_exits _ anything), obeys_check_pwd. apply _.
  - apply (obeys_exits _ anything), obeys_check_env. apply _.
  - eapply obeys_exits, obeys_check_certs.
  - eapply obeys_exits, obeys_check_nodejs.
Qed.

(** X17.  Every command that [check_certs] and [check_nodejs] hand to
    [Popen] is run with its output captured, the installation of the local
    certificate authority included; none inherits the terminal.  Both
    checks only add to the log. *)
Theorem checks_capture_every_command col ROOT_DIR os_popen s :
  (∃ evs,
     trace (check_certs col ROOT_DIR os_popen s).2 = trace s ++ evs
     ∧ Forall (λ call, call.2 = true) (popen_calls evs))
  ∧ (∃ evs,
       trace (check_nodejs col os_popen s).2 = trace s ++ evs
       ∧ Forall (λ call, call.2 = true) (popen_calls evs)).
Proof.
  split.
  - by destruct (obeys_check_certs col ROOT_DIR os_popen s) as [? _].
  - by destruct (obeys_check_nodejs col os_popen s) as [? _].
Qed.

(** ** The entry point *)

Lemma obeys_emit_anything codes e : obeys codes anything (emit e).
Proof. intros s. split; [|done]. by exists [e]. Qed.

Lemma obeys_sp_run codes os_popen cmd :
  obeys codes anything (sp_run os_popen cmd).
Proof.
  unfold sp_run.
  repeat first [apply obeys_emit_anything | obeys_step].
Qed.

Lemma to_anything {A} codes codes' P (m : M A) :
  codes ⊆ codes' -> obeys codes P m -> obeys codes' anything m.
Proof. intros Hsub. by apply obeys_weaken. Qed.

Section Main.

Variable col : Color.
Variable ROOT_DIR : path.
Variable ENV_KEYS_iter : list str.
Variable os_popen : str -> bool -> OS -> Fault + (Process * OS).
Variable platform_system : str.
Variable user_is_admin : bool.
Variable banner : str.

(** The part of [main] from the certificate check on. *)
Lemma obeys_main_back (win : bool) :
  obeys [3%Z; 4%Z] anything
    (check_certs col ROOT_DIR os_popen;;
     check_nodejs col os_popen;;
     print [] [LF];;
     pinfo col (u "Run `npm run serve` to start the server") 0;;
     if win then print [] [LF];; sp_run os_popen (u "pause") else ret tt).
Proof.
  apply obeys_bind; [apply _ | | intros _].
  { apply (to_anything [3%Z] _ all_captured); [set_solver|].
    apply obeys_check_certs. }
  apply obeys_bind; [apply _ | | intros _].
  { apply (to_anything [4%Z] _ all_captured); [set_solver|].
    apply obeys_check_nodejs. }
  repeat first [apply obeys_sp_run | obeys_step].
Qed.

Lemma obeys_main :
  obeys [1%Z; 2%Z; 3%Z; 4%Z] anything
    (main col ROOT_DIR ENV_KEYS_iter os_popen platform_system user_is_admin
       banner).
Proof.
  unfold main.
  apply obeys_bind; [apply _ | | intros win].
  { obeys_tac. }
  apply obeys_bind; [apply _ | | intros _]; [apply obeys_pbanner; apply _|].
  apply obeys_bind; [apply _ | | intros _]; [apply obeys_check_pwd; apply _|].
  apply obeys_bind; [apply _ | | intros _].
  { apply (to_anything [2%Z] _ anything); [set_solver|].
    apply obeys_check_env. apply _. }
  apply (to_anything [3%Z; 4%Z] _ anything); [set_solver|].
  apply obeys_main_back.
Qed.

Lemma bind_exit_inv {A B} (m : M A) (k : A -> M B) s c s' :
  bind m k s = (Exit c, s') ->
  m s = (Exit c, s') ∨ ∃ a s1, m s = (Ret a, s1) ∧ k a s1 = (Exit c, s').
Proof.
  unfold bind. destruct (m s) as [[a|c0|e] s1]; intros H.
  - right. by exists a, s1.
  - left. by injection H as -> ->.
  - discriminate H.
Qed.

Lemma bind_ret_inv {A B} (m : M A) (k : A -> M B) s b s' :
  bind m k s = (Ret b, s') ->
  ∃ a s1, m s = (Ret a, s1) ∧ k a s1 = (Ret b, s').
Proof.
  unfold bind. destruct (m s) as [[a|c0|e] s1]; intros H; try discriminate H.
  by exists a, s1.
Qed.

(** A stage that runs no command, in front of the rest. *)
Lemma quiet_stage {A B} codes (m : M A) (k : A -> M B) s c s' :
  obeys codes no_cmds m ->
  bind m k s = (Exit c, s') ->
  cmds_run (trace s') = cmds_run (trace s)
  ∨ ∃ a s1,
      cmds_run (trace s1) = cmds_run (trace s) ∧ k a s1 = (Exit c, s').
Proof.
  intros Hm Hrun. destruct (Hm s) as [(evs & Ht & Hq) _].
  assert (Hsame : cmds_run (trace (m s).2) = cmds_run (trace s)).
  { rewrite Ht, cmds_run_app, Hq. by rewrite app_nil_r. }
  apply bind_exit_inv in Hrun as [Hrun | (a & s1 & Hrun & Hk)].
  - left. by rewrite Hrun in Hsame.
  - right. exists a, s1. split; [|done]. by rewrite Hrun in Hsame.
Qed.

Lemma main_early_exit s c s' :
  main col ROOT_DIR ENV_KEYS_iter os_popen platform_system user_is_admin
    banner s = (Exit c, s') ->
  c = 1%Z ∨ c = 2%Z ->
  cmds_run (trace s') = cmds_run (trace s).
Proof.
  intros Hrun Hc. unfold main in Hrun.
  eapply (quiet_stage [1%Z]) in Hrun as [Hq | (win & s1 & Hq1 & Hrun)];
    [exact Hq | | obeys_tac].
  eapply (quiet_stage []) in Hrun as [Hq | (? & s2 & Hq2 & Hrun)];
    [by rewrite Hq | | apply obeys_pbanner; apply _].
  eapply (quiet_stage []) in Hrun as [Hq | (? & s3 & Hq3 & Hrun)];
    [by rewrite Hq, Hq2 | | apply obeys_check_pwd; apply _].
  eapply (quiet_stage [2%Z]) in Hrun as [Hq | (? & s4 & Hq4 & Hrun)];
    [by rewrite Hq, Hq3, Hq2 | | apply obeys_check_env; apply _].
  apply (obeys_exits _ _ _ (obeys_main_back win)) in Hrun.
  destruct Hc as [-> | ->]; set_solver.
Qed.

End Main.

(** X18.  [main] exits with no code other than 1, 2, 3 and 4. *)
Theorem main_exit_codes
    col ROOT_DIR ENV_KEYS_iter os_popen platform_system user_is_admin banner
    s c s' :
  main col ROOT_DIR ENV_KEYS_iter os_popen platform_system user_is_admin
    banner s = (Exit c, s') ->
  c = 1%Z ∨ c = 2%Z ∨ c = 3%Z ∨ c = 4%Z.
Proof.
  intros Hrun.
  apply (obeys_exits _ _ _
           (obeys_main col ROOT_DIR ENV_KEYS_iter os_popen platform_system
              user_is_admin banner)) in Hrun.
  set_solver.
Qed.

Lemma main_exit_codes_witness : (2 = 1 ∨ 2 = 2 ∨ 2 = 3 ∨ 2 = 4)%Z.
Proof.
  apply (main_exit_codes ansi project [] popen_ok (u "Linux") false
           (u "banner") (start os_one_line_template) 2
           (main ansi project [] popen_ok (u "Linux") false (u "banner")
              (start os_one_line_template)).2).
  vm_compute. reflexivity.
Defined.

(** X19.  If [main] exits with code 1 or 2, no command has been handed to
    [Popen]: the permission check, the banner, the directory check and the
    configuration check run nothing. *)
Theorem main_early_exit_runs_nothing
    col ROOT_DIR ENV_KEYS_iter os_popen platform_system user_is_admin banner
    s c s' :
  main col ROOT_DIR ENV_KEYS_iter os_popen platform_system user_is_admin
    banner s = (Exit c, s') ->
  c = 1%Z ∨ c = 2%Z ->
  cmds_run (trace s') = cmds_run (trace s).
Proof. apply main_early_exit. Qed.

Lemma main_early_exit_runs_nothing_witness :
  cmds_run
    (trace (main ansi project [] popen_ok (u "Linux") false (u "banner")
              (start os_one_line_template)).2)
  = cmds_run (trace (start os_one_line_template)).
Proof.
  apply (main_early_exit_runs_nothing ansi project [] popen_ok (u "Linux")
           false (u "banner") (start os_one_line_template) 2).
  - vm_compute. reflexivity.
  - by right.
Defined.

(** X20.  On Windows without administrator rights [main] exits with code
    1 after its five lines of advice, before the banner and before any
    check: the system is left as it is and nothing is run. *)
Theorem main_requires_admin_on_windows
    col ROOT_DIR ENV_KEYS_iter os_popen platform_system banner s :
  platform_system = u "Windows" ->
  main col ROOT_DIR ENV_KEYS_iter os_popen platform_system false banner s
  = (Exit 1,
     appended s
       [perr_event col
          (u "This script requires administrator privileges on Windows") 0;
        perr_event col (u "Please run again as admin") 0;
        Out [LF];
        pinfo_event col
          (u "Tip: Run the following in Powershell if wt.exe is available: ")
          0;
        Out (_print_text col
               (u "Start-Process wt.exe -Verb RunAs -ArgumentList " ++ [QUOTE]
                  ++ u "python $PWD\init-scripts\init.py" ++ [QUOTE])
               None 4 (DIM col) ++ [LF])]).
Proof.
  intros ->. unfold main.
  rewrite bool_decide_eq_true_2 by done. cbn [negb andb].
  unfold bind at 1. run_step. run_step. run_step. run_step.
  unfold bind at 1. unfold pwindows_tip, _print. rewrite print_run.
  unfold sys_exit. by rewrite !appended_app.
Qed.

Lemma main_requires_admin_on_windows_witness :
  main stripped project [] popen_ok (u "Windows") false (u "banner")
    (start os_ready)
  = (Exit 1,
     appended (start os_ready)
       [perr_event stripped
          (u "This script requires administrator privileges on Windows") 0;
        perr_event stripped (u "Please run again as admin") 0;
        Out [LF];
        pinfo_event stripped
          (u "Tip: Run the following in Powershell if wt.exe is available: ")
          0;
        Out (_print_text stripped
               (u "Start-Process wt.exe -Verb RunAs -ArgumentList " ++ [QUOTE]
                  ++ u "python $PWD\init-scripts\init.py" ++ [QUOTE])
               None 4 (DIM stripped) ++ [LF])]).
Proof.
  apply (main_requires_admin_on_windows stripped project [] popen_ok
           (u "Windows") (u "banner") (start os_ready)).
  reflexivity.
Defined.

Lemma check_nodejs_returned col os_popen s s' :
  check_nodejs col os_popen s = (Ret tt, s') ->
  ∃ evs, trace s' = trace s ++ evs ∧ cmds_run evs = [u "npm install"].
Proof.
  intros Hrun.
  destruct (fs (os s) !! manifest_path (os s)) as [nd|] eqn:Hfile.
  - destruct (decide (u "node" ∈ on_path (os s))) as [Hnode|Hnode].
    + destruct (check_nodejs_present col os_popen s) as (evs & Heq & Hc);
        [by eexists | done |].
      rewrite Heq in Hrun.
      destruct ((cmd_result os_popen (u "npm install") (os s)).1);
        [|discriminate Hrun].
      injection Hrun as <-. by exists evs.
    + destruct (check_nodejs_missing col os_popen s) as (evs & Heq & _);
        [by right|]. by rewrite Heq in Hrun.
  - destruct (check_nodejs_missing col os_popen s) as (evs & Heq & _);
      [by left|]. by rewrite Heq in Hrun.
Qed.

(** X21.  When [main] returns, the dependency installation has been run
    and was the last command of the checks: the commands handed to [Popen]
    end with [npm install], followed on Windows by the final [pause]. *)
Theorem main_returns_after_npm_install
    col ROOT_DIR ENV_KEYS_iter os_popen platform_system user_is_admin banner
    s s' :
  main col ROOT_DIR ENV_KEYS_iter os_popen platform_system user_is_admin
    banner s = (Ret tt, s') ->
  ∃ earlier,
    cmds_run (trace s')
    = earlier ++ [u "npm install"]
      ++ (if bool_decide (platform_system = u "Windows")
          then [u "pause"] else []).
Proof.
  intros Hrun. unfold main in Hrun.
  apply bind_ret_inv in Hrun as (win & s1 & Hpre & Hrun).
  assert (Hwin : win = bool_decide (platform_system = u "Windows")).
  { destruct (bool_decide (platform_system = u "Windows")), user_is_admin;
      cbn [negb andb] in Hpre; try (by injection Hpre as <- _).
    exfalso. revert Hpre. unfold bind at 1. rewrite perr_run.
    unfold bind at 1. rewrite perr_run.
    unfold bind at 1. rewrite print_run.
    unfold bind at 1. rewrite pinfo_run.
    unfold bind at 1. unfold pwindows_tip, _print. rewrite print_run.
    discriminate. }
  apply bind_ret_inv in Hrun as (? & s2 & _ & Hrun).
  apply bind_ret_inv in Hrun as (? & s3 & _ & Hrun).
  apply bind_ret_inv in Hrun as (? & s4 & _ & Hrun).
  apply bind_ret_inv in Hrun as (? & s5 & _ & Hrun).
  apply bind_ret_inv in Hrun as ([] & s6 & Hnode & Hrun).
  apply check_nodejs_returned in Hnode as (evs & Ht & Hc).
  revert Hrun. unfold bind at 1. rewrite print_run.
  unfold bind at 1. rewrite pinfo_run. rewrite <- Hwin.
  destruct win.
  - unfold bind at 1. rewrite print_run.
    unfold sp_run. unfold bind at 1, emit. unfold bind at 1, get_os.
    cbn [os appended trace].
    destruct (os_popen (u "pause") false (os s6)) as [e|[p o']];
      [discriminate|].
    unfold set_os. intros [= <-]. cbn [trace].
    exists (cmds_run (trace s5)).
    rewrite Ht, !cmds_run_app, Hc. cbn [cmds_run app].
    by rewrite <- !app_assoc.
  - unfold ret. intros [= <-]. cbn [trace appended].
    exists (cmds_run (trace s5)).
    rewrite Ht, !cmds_run_app, Hc. cbn [cmds_run app pinfo_event].
    by rewrite <- !app_assoc.
Qed.

Lemma main_returns_after_npm_install_witness :
  ∃ earlier,
    cmds_run
      (trace (main ansi project [] popen_ok (u "Windows") true (u "banner")
                (start os_ready)).2)
    = earlier ++ [u "npm install"]
      ++ (if bool_decide (u "Windows" = u "Windows")
          then [u "pause"] else []).
Proof.
  apply (main_returns_after_npm_install ansi project [] popen_ok
           (u "Windows") true (u "banner") (start os_ready)).
  vm_compute. reflexivity.
Defined.

(** ** Highlighting of quoted names *)

Lemma re_sub_scan_prefix rst color a msg :
  has_char BACKTICK a = false ->
  re_sub_scan rst color None (a ++ msg) = a ++ re_sub_scan rst color None msg.
Proof.
  induction a as [|c a IH]; [done|].
  rewrite has_char_cons. cbn [app re_sub_scan].
  destruct (c =? BACKTICK)%N; [done|]. simpl. intros H. by rewrite (IH H).
Qed.

Lemma re_sub_scan_pending rst color acc c msg :
  re_sub_scan rst color (Some acc) (c :: msg)
  = if (c =? BACKTICK)%N then
      rst ++ [BACKTICK] ++ rev acc ++ [BACKTICK] ++ color
          ++ re_sub_scan rst color None msg
    else if (c =? LF)%N then
      BACKTICK :: rev acc ++ LF :: re_sub_scan rst color None msg
    else re_sub_scan rst color (Some (c :: acc)) msg.
Proof. reflexivity. Qed.

Lemma re_sub_scan_close rst color acc b rest :
  has_char BACKTICK b = false ->
  has_char LF b = false ->
  re_sub_scan rst color (Some acc) (b ++ BACKTICK :: rest)
  = rst ++ [BACKTICK] ++ rev acc ++ b ++ [BACKTICK] ++ color
      ++ re_sub_scan rst color None rest.
Proof.
  revert acc. induction b as [|c b IH]; intros acc.
  - intros _ _. cbn [app]. rewrite re_sub_scan_pending.
    by rewrite N.eqb_refl.
  - rewrite !has_char_cons. rewrite <- app_comm_cons, re_sub_scan_pending.
    destruct (c =? BACKTICK)%N; [done|].
    destruct (c =? LF)%N; [done|]. simpl orb. intros Hb Hl.
    unfold str in *. rewrite (IH (c :: acc) Hb Hl). cbn [rev].
    by rewrite <- !app_assoc.
Qed.

(** X22.  A message without a backtick is printed as it is: the
    highlighting of [_print] changes nothing in it. *)
Theorem re_sub_keeps_plain_message rst color msg :
  has_char BACKTICK msg = false ->
  re_sub_backticks rst color msg = msg.
Proof.
  intros H. unfold re_sub_backticks.
  rewrite <- (app_nil_r msg) at 1.
  rewrite (re_sub_scan_prefix rst color msg [] H). cbn [re_sub_scan].
  by rewrite app_nil_r.
Qed.

Lemma re_sub_keeps_plain_message_witness :
  re_sub_backticks (RST ansi) (RED ansi) (u "Node.js is not installed")
  = u "Node.js is not installed".
Proof.
  apply (re_sub_keeps_plain_message (RST ansi) (RED ansi)
           (u "Node.js is not installed")).
  reflexivity.
Defined.

(** X23.  The first name quoted in backticks on one line is set off from
    the colour of the message: the reset code is put before its opening
    backtick and the colour is resumed after its closing backtick; the
    text before it is unchanged and the text after it is treated
    likewise. *)
Theorem re_sub_wraps_quoted_name rst color before name after :
  has_char BACKTICK before = false ->
  has_char BACKTICK name = false ->
  has_char LF name = false ->
  re_sub_backticks rst color
    (before ++ [BACKTICK] ++ name ++ [BACKTICK] ++ after)
  = before ++ rst ++ [BACKTICK] ++ name ++ [BACKTICK] ++ color
      ++ re_sub_backticks rst color after.
Proof.
  intros Hb Hn Hl. unfold re_sub_backticks.
  rewrite (re_sub_scan_prefix rst color before _ Hb).
  f_equal. exact (re_sub_scan_close rst color [] name after Hn Hl).
Qed.

Lemma re_sub_wraps_quoted_name_witness :
  re_sub_backticks (RST ansi) (GRN ansi)
    (u "Created " ++ [BACKTICK] ++ u "certs" ++ [BACKTICK] ++ u " dir")
  = u "Created " ++ RST ansi ++ [BACKTICK] ++ u "certs" ++ [BACKTICK]
      ++ GRN ansi ++ re_sub_backticks (RST ansi) (GRN ansi) (u " dir").
Proof.
  apply (re_sub_wraps_quoted_name (RST ansi) (GRN ansi) (u "Created ")
           (u "certs") (u " dir")); reflexivity.
Defined.

(** ** Lines of the configuration file *)

(** X24.  The validation loop of [check_env] passes over a line made of
    a recognized key, the separator and a value that holds a character
    other than white space: it writes no report for it and does not raise
    the error flag, whatever else the value holds, further separators
    included.  So the check goes on as if the line were not there. *)
Theorem recognized_assignment_is_accepted
    col ENV_KEYS_iter key value c rest err s :
  key ∈ ENV_KEYS ->
  c ∈ value ->
  isspace c = false ->
  env_loop col ENV_KEYS_iter ((key ++ EQUALS :: value) :: rest) err s
  = env_loop col ENV_KEYS_iter rest err s
  ∧ well_formed (key ++ EQUALS :: value) = true
  ∧ malformed (key ++ EQUALS :: value) = false.
Proof.
  intros Hkey Hc Hsp.
  destruct (assignment_well_formed key value c Hkey Hc Hsp) as [Hwf Hbad].
  split; [|by split].
  rewrite !env_loop_run. cbn [existsb List.filter]. by rewrite Hbad.
Qed.

Lemma recognized_assignment_is_accepted_witness :
  env_loop ansi []
    [u "RECAPTCHA_SECRET_KEY" ++ EQUALS :: u " 6Lc=x=" ++ [LF];
     u "ARGON_THREADS" ++ [LF]]
    false (start os_ready)
  = env_loop ansi [] [u "ARGON_THREADS" ++ [LF]] false (start os_ready)
  ∧ well_formed (u "RECAPTCHA_SECRET_KEY" ++ EQUALS :: u " 6Lc=x=" ++ [LF])
    = true
  ∧ malformed (u "RECAPTCHA_SECRET_KEY" ++ EQUALS :: u " 6Lc=x=" ++ [LF])
    = false.
Proof.
  apply (recognized_assignment_is_accepted ansi [] (u "RECAPTCHA_SECRET_KEY")
           (u " 6Lc=x=" ++ [LF]) 54%N [u "ARGON_THREADS" ++ [LF]] false
           (start os_ready)).
  - vm_compute. reflexivity.
  - apply elem_of_cons. right. apply elem_of_cons. by left.
  - reflexivity.
Defined.

(** ** The directory check followed by the configuration check *)

Lemma check_pwd_run col ROOT_DIR s :
  fs (os s) !! cwd (os s) = Some Dir ->
  fs (os s) !! ROOT_DIR = Some Dir ->
  ∃ evs,
    check_pwd col ROOT_DIR s
    = (Ret tt, {| os := with_cwd (os s) ROOT_DIR; trace := trace s ++ evs |}).
Proof.
  intros Hcwd Hroot. unfold check_pwd.
  unfold bind at 1. rewrite psec_run.
  unfold bind at 1. rewrite getcwd_run by exact Hcwd.
  cbn [os appended].
  unfold bind at 1. rewrite pinfo_run.
  destruct (bool_decide (ROOT_DIR ≠ cwd (os s))) eqn:Hne.
  - unfold bind at 1. unfold bind at 1. rewrite pwarn_run.
    unfold bind at 1. rewrite pinfo_run.
    rewrite chdir_run by exact Hroot.
    rewrite psuccess_run.
    eexists. unfold appended, with_cwd. cbn [os trace].
    rewrite <- !app_assoc. reflexivity.
  - apply bool_decide_eq_false in Hne. apply dec_stable in Hne.
    unfold bind at 1, ret. rewrite psuccess_run.
    eexists. unfold appended. cbn [os trace].
    rewrite <- !app_assoc. f_equal. f_equal.
    rewrite Hne. by destruct s as [[c f b i] t].
Qed.

(** X25.  From whatever existing directory the script is started, with
    the project root in place, the configuration check that follows the
    directory check reads the [.env] of the project root, not that of the
    directory it was started from: its verdict is decided by the lines of
    that file, and it is given from within the root. *)
Theorem check_env_after_check_pwd_reads_root
    col ROOT_DIR ENV_KEYS_iter s content :
  fs (os s) !! cwd (os s) = Some Dir ->
  fs (os s) !! ROOT_DIR = Some Dir ->
  fs (os s) !! (ROOT_DIR ++ [u ".env"]) = Some (File content) ->
  ((check_pwd col ROOT_DIR;; check_env col ENV_KEYS_iter) s).1
  = (if existsb malformed (env_lines content) then Exit 2 else Ret tt)
  ∧ os ((check_pwd col ROOT_DIR;; check_env col ENV_KEYS_iter) s).2
    = with_cwd (os s) ROOT_DIR.
Proof.
  intros Hcwd Hroot Hfile.
  destruct (check_pwd_run col ROOT_DIR s Hcwd Hroot) as (evs & Hpwd).
  unfold bind. rewrite Hpwd.
  rewrite (check_env_existing col ENV_KEYS_iter _ content) by exact Hfile.
  by destruct (existsb malformed (env_lines content)).
Qed.

Lemma check_env_after_check_pwd_reads_root_witness :
  ((check_pwd ansi project;; check_env ansi [])
     (start (os_from_home
               [(project ++ [u ".env"], File (u "ARGON_THREADS=4" ++ [LF]));
                ([u "home"; u "dev"; u ".env"], File (u "bad line"))]))).1
  = (if existsb malformed (env_lines (u "ARGON_THREADS=4" ++ [LF]))
     then Exit 2 else Ret tt)
  ∧ os ((check_pwd ansi project;; check_env ansi [])
          (start (os_from_home
                    [(project ++ [u ".env"],
                      File (u "ARGON_THREADS=4" ++ [LF]));
                     ([u "home"; u "dev"; u ".env"], File (u "bad line"))]))).2
    = with_cwd
        (os (start (os_from_home
                      [(project ++ [u ".env"],
                        File (u "ARGON_THREADS=4" ++ [LF]));
                       ([u "home"; u "dev"; u ".env"], File (u "bad line"))])))
        project.
Proof.
  apply (check_env_after_check_pwd_reads_root ansi project []
           (start (os_from_home
                     [(project ++ [u ".env"],
                       File (u "ARGON_THREADS=4" ++ [LF]));
                      ([u "home"; u "dev"; u ".env"], File (u "bad line"))]))
           (u "ARGON_THREADS=4" ++ [LF])).
  - vm_compute. reflexivity.
  - vm_compute. reflexivity.
  - vm_compute. reflexivity.
Defined.
